(** * Help Desk chat page: the script [static/app.js]

    A shallow embedding of the client script that wires the prompt field, the
    send button, the microphone button and the speak checkbox to the [/ask]
    endpoint, and the properties of it that the specification states.

    The script is event driven.  Each handler is a function on the page
    state; the two [async] functions ([askServer], [handleSend]) are cut at
    their [await]s into the part that runs before the suspension and the part
    that runs when the awaited promise settles. *)

From Stdlib Require Import List NArith Bool String Ascii Lia ZifyBool.
Import ListNotations.

Set Warnings "-register-all".

(** ** JavaScript strings *)

Module JsString.

(** A JavaScript string is a sequence of UTF-16 code units. *)
Definition code_unit := N.
Definition t := list code_unit.

(** An ASCII literal of the script, as code units. *)
Definition lit (s : string) : t := map N_of_ascii (list_ascii_of_string s).

Definition eqb (a b : t) : bool :=
  if list_eq_dec N.eq_dec a b then true else false.

(** WhiteSpace and LineTerminator code points of ECMAScript, the ones
    [String.prototype.trim] strips.  All of them are in the basic plane, so
    each is one code unit. *)
Definition is_white_space (c : code_unit) : bool :=
  ((9 <=? c) && (c <=? 13)            (* TAB LF VT FF CR *)
   || (c =? 32)                       (* SPACE *)
   || (c =? 160)                      (* NO-BREAK SPACE *)
   || (c =? 5760)                     (* U+1680 *)
   || ((8192 <=? c) && (c <=? 8202))  (* U+2000 .. U+200A *)
   || (c =? 8232) || (c =? 8233)      (* LINE and PARAGRAPH SEPARATOR *)
   || (c =? 8239)                     (* U+202F *)
   || (c =? 8287)                     (* U+205F *)
   || (c =? 12288)                    (* U+3000 *)
   || (c =? 65279))%N.                (* U+FEFF *)

Fixpoint trimStart (s : t) : t :=
  match s with
  | c :: s' => if is_white_space c then trimStart s' else s
  | [] => []
  end.

Definition trimEnd (s : t) : t := rev (trimStart (rev s)).

(** [s.trim()] *)
Definition trim (s : t) : t := trimEnd (trimStart s).

(** A string is falsy exactly when it is empty: [!s]. *)
Definition is_empty (s : t) : bool :=
  match s with [] => true | _ :: _ => false end.

(** Nothing to trim at the start: empty, or the first unit is not white. *)
Definition starts_clean (s : t) : Prop :=
  match s with
  | [] => True
  | c :: _ => is_white_space c = false
  end.

End JsString.

Definition jsstring : Type := JsString.t.
Definition js (s : string) : jsstring := JsString.lit s.

Open Scope string_scope.
Open Scope list_scope.

(** ** Completions *)

Inductive error :=
| TypeError          (* also what [fetch] rejects with when the network fails *)
| SyntaxError        (* what [res.json()] rejects with on a body that is not JSON *)
| OtherError (name : jsstring).

(** How an evaluation completes or a promise settles: with a value, or with
    an error thrown (a rejection). *)
Inductive outcome (A : Type) :=
| Fulfilled (a : A)
| Rejected (reason : error).
Arguments Fulfilled {A} a.
Arguments Rejected {A} reason.

(** ** JavaScript values *)

(** The values the script handles: what [res.json()] can resolve to, and
    [undefined] for a property that is not there.  A number is kept as the two
    things the script can observe of it: whether it is falsy (zero) and its
    [ToString] rendition. *)
Record number := { num_is_zero : bool; num_text : jsstring }.

Inductive value :=
| VUndefined
| VNull
| VBool (b : bool)
| VNumber (n : number)
| VString (s : jsstring)
| VArray (elems : list value)
| VObject (props : list (jsstring * value)).

(** [ToBoolean]: [undefined], [null], [false], zero and the empty string are
    falsy; every array and object is truthy. *)
Definition truthy (v : value) : bool :=
  match v with
  | VUndefined | VNull => false
  | VBool b => b
  | VNumber n => negb (num_is_zero n)
  | VString s => negb (JsString.is_empty s)
  | VArray _ | VObject _ => true
  end.

(** [a || b] *)
Definition js_or (a b : value) : value := if truthy a then a else b.

(** Own property lookup on an object built by [JSON.parse] or by an object
    literal: the last member with the key wins. *)
Fixpoint own_prop (key : jsstring) (props : list (jsstring * value))
  : option value :=
  match props with
  | [] => None
  | (k, v) :: rest =>
      match own_prop key rest with
      | Some found => Some found
      | None => if JsString.eqb k key then Some v else None
      end
  end.

(** [ToString], on the values above.  An array prints its elements joined
    by commas, with [undefined] and [null] elements printed as nothing.  An
    object without a member [toString] inherits the one that prints
    [[object Object]]; with such a member, which is no function as it came out
    of JSON, neither it nor [valueOf] yields a primitive and a [TypeError] is
    thrown. *)
Fixpoint ToString (v : value) : outcome jsstring :=
  match v with
  | VUndefined => Fulfilled (js "undefined")
  | VNull => Fulfilled (js "null")
  | VBool true => Fulfilled (js "true")
  | VBool false => Fulfilled (js "false")
  | VNumber n => Fulfilled (num_text n)
  | VString s => Fulfilled s
  | VArray elems =>
      let elem_text e :=
        match e with
        | VUndefined | VNull => Fulfilled []
        | _ => ToString e
        end in
      (fix join (l : list value) : outcome jsstring :=
         match l with
         | [] => Fulfilled []
         | e :: l' =>
             match elem_text e with
             | Rejected err => Rejected err
             | Fulfilled text =>
                 match l' with
                 | [] => Fulfilled text
                 | _ :: _ =>
                     match join l' with
                     | Rejected err => Rejected err
                     | Fulfilled texts => Fulfilled (text ++ js "," ++ texts)
                     end
                 end
             end
         end) elems
  | VObject props =>
      match own_prop (js "toString") props with
      | Some _ => Rejected TypeError
      | None => Fulfilled (js "[object Object]")
      end
  end.

(** Conversion to a nullable [DOMString], as done by the setter of
    [textContent]: [null] and [undefined] give the empty text. *)
Definition to_text_content (v : value) : outcome jsstring :=
  match v with
  | VUndefined | VNull => Fulfilled []
  | _ => ToString v
  end.

(** Sequencing of two evaluations, the second not run when the first
    throws. *)
Definition and_then {A B : Type} (r : outcome A) (k : A -> outcome B)
  : outcome B :=
  match r with
  | Fulfilled a => k a
  | Rejected e => Rejected e
  end.

Notation "x <- r ;; k" := (and_then r (fun x => k))
  (at level 61, r at next level, right associativity).

(** ** JSON text of the request *)

Module Json.

Definition quotation_mark : JsString.code_unit := 34%N.
Definition reverse_solidus : JsString.code_unit := 92%N.

Definition hex_digit (d : N) : JsString.code_unit :=
  (if d <? 10 then 48 + d else 87 + d)%N.

(** [UnicodeEscape]: a backslash, [u] and four lower-case hex digits. *)
Definition UnicodeEscape (c : JsString.code_unit) : jsstring :=
  [reverse_solidus; 117;
   hex_digit (c / 4096); hex_digit ((c / 256) mod 16);
   hex_digit ((c / 16) mod 16); hex_digit (c mod 16)]%N.

Definition is_leading_surrogate (c : JsString.code_unit) : bool :=
  ((55296 <=? c) && (c <=? 56319))%N.
Definition is_trailing_surrogate (c : JsString.code_unit) : bool :=
  ((56320 <=? c) && (c <=? 57343))%N.

(** One code unit that is not a surrogate, as [QuoteJSONString] writes it. *)
Definition quote_unit (c : JsString.code_unit) : jsstring :=
  (if c =? 8 then [reverse_solidus; 98]            (* \b *)
   else if c =? 9 then [reverse_solidus; 116]      (* \t *)
   else if c =? 10 then [reverse_solidus; 110]     (* \n *)
   else if c =? 12 then [reverse_solidus; 102]     (* \f *)
   else if c =? 13 then [reverse_solidus; 114]     (* \r *)
   else if c =? 34 then [reverse_solidus; quotation_mark]
   else if c =? 92 then [reverse_solidus; reverse_solidus]
   else if c <? 32 then UnicodeEscape c
   else [c])%N.

(** The string is read by code points: a leading surrogate followed by a
    trailing one is one code point and is written as it is; a surrogate on
    its own is escaped. *)
Fixpoint quote_body (s : jsstring) : jsstring :=
  match s with
  | [] => []
  | c :: rest =>
      if is_leading_surrogate c then
        match rest with
        | d :: rest' =>
            if is_trailing_surrogate d then c :: d :: quote_body rest'
            else UnicodeEscape c ++ quote_body rest
        | [] => UnicodeEscape c
        end
      else if is_trailing_surrogate c then UnicodeEscape c ++ quote_body rest
      else quote_unit c ++ quote_body rest
  end.

Definition QuoteJSONString (s : jsstring) : jsstring :=
  quotation_mark :: quote_body s ++ [quotation_mark].

(** [JSON.stringify({ question })] for a string [question]: an object with
    the one member [question]. *)
Definition stringify_question (question : jsstring) : jsstring :=
  js "{" ++ QuoteJSONString (js "question") ++ js ":"
     ++ QuoteJSONString question ++ js "}".

(** *** Reading the text back

    The receiving end of the request: a reader of JSON string literals, and
    of the one-member object the script sends. *)

Definition hex_value (c : JsString.code_unit) : option N :=
  (if (48 <=? c) && (c <=? 57) then Some (c - 48)
   else if (97 <=? c) && (c <=? 102) then Some (c - 87)
   else if (65 <=? c) && (c <=? 70) then Some (c - 55)
   else None)%N.

Definition simple_escape (c : JsString.code_unit) : option JsString.code_unit :=
  (if c =? 34 then Some 34
   else if c =? 92 then Some 92
   else if c =? 47 then Some 47
   else if c =? 98 then Some 8
   else if c =? 102 then Some 12
   else if c =? 110 then Some 10
   else if c =? 114 then Some 13
   else if c =? 116 then Some 9
   else None)%N.

Definition cons_parsed (c : JsString.code_unit)
  (r : option (jsstring * jsstring)) : option (jsstring * jsstring) :=
  match r with
  | Some (s, rest) => Some (c :: s, rest)
  | None => None
  end.

(** The characters of a string literal after its opening quotation mark, up
    to and including the closing one; the result is the string and the text
    that follows the literal. *)
Fixpoint read_chars (text : jsstring) : option (jsstring * jsstring) :=
  match text with
  | [] => None
  | c :: r =>
      if (c =? quotation_mark)%N then Some ([], r)
      else if (c =? reverse_solidus)%N then
        match r with
        | [] => None
        | e :: r1 =>
            if (e =? 117)%N then
              match r1 with
              | h1 :: h2 :: h3 :: h4 :: r2 =>
                  match hex_value h1, hex_value h2, hex_value h3, hex_value h4 with
                  | Some a, Some b, Some c', Some d =>
                      cons_parsed (4096 * a + 256 * b + 16 * c' + d)%N
                        (read_chars r2)
                  | _, _, _, _ => None
                  end
              | _ => None
              end
            else
              match simple_escape e with
              | Some x => cons_parsed x (read_chars r1)
              | None => None
              end
        end
      else if (c <? 32)%N then None
      else cons_parsed c (read_chars r)
  end.

Definition read_string (text : jsstring) : option (jsstring * jsstring) :=
  match text with
  | c :: r => if (c =? quotation_mark)%N then read_chars r else None
  | [] => None
  end.

Definition expect (c : JsString.code_unit) (text : jsstring) : option jsstring :=
  match text with
  | c' :: r => if (c' =? c)%N then Some r else None
  | [] => None
  end.

(** The [question] member of a body of the shape the script sends. *)
Definition read_question (body : jsstring) : option jsstring :=
  match expect 123%N body with
  | None => None
  | Some t1 =>
      match read_string t1 with
      | None => None
      | Some (key, t2) =>
          if JsString.eqb key (js "question") then
            match expect 58%N t2 with
            | None => None
            | Some t3 =>
                match read_string t3 with
                | Some (question, [125%N]) => Some question
                | _ => None
                end
            end
          else None
      end
  end.

End Json.

(** ** The page and what the script does to it *)

(** A child of [#messages], as [addMsg] builds it. *)
Record div := { className : jsstring; textContent : jsstring }.

(** A [SpeechSynthesisUtterance]: its text and its [lang]. *)
Record utterance := { utterance_text : jsstring; utterance_lang : jsstring }.

(** The arguments of a [fetch] call. *)
Record request := {
  url : jsstring;
  method : jsstring;
  headers : list (jsstring * jsstring);
  body : jsstring
}.

(** Every write to the page and every call to the network, to the speech
    synthesis engine or to the recognition engine, in the order made. *)
Inductive effect :=
| AppendChild (d : div)              (* messages.appendChild(div) *)
| ScrollToEnd                        (* messages.scrollTop = messages.scrollHeight *)
| SetPromptValue (v : jsstring)      (* promptInput.value = v *)
| Fetch (r : request)                (* fetch(url, options) *)
| SynthesisCancel                    (* window.speechSynthesis.cancel() *)
| SynthesisSpeak (u : utterance)     (* window.speechSynthesis.speak(u) *)
| MicClassAdd (c : jsstring)         (* micBtn.classList.add(c) *)
| MicClassRemove (c : jsstring)      (* micBtn.classList.remove(c) *)
| RecognitionStart                   (* recognition.start() *)
| RecognitionStop                    (* recognition.stop() *)
| SetMicDisabled (b : bool)          (* micBtn.disabled = b *)
| SetMicTitle (t : jsstring).        (* micBtn.title = t *)

(** The element [#prompt] is a text control of the page, which is not part
    of the script: a single-line one ([input] of a text type) or a multi-line
    one ([textarea]).  The two differ in what they keep of a string assigned
    to [value]. *)
Inductive text_control :=
| SingleLine
| MultiLine.

(** What [promptInput.value] holds after [promptInput.value = v]: a
    single-line control strips the line breaks LF and CR; a multi-line one
    gives back every CR LF pair and every other CR as one LF. *)
Fixpoint assigned_value (k : text_control) (v : jsstring) : jsstring :=
  match v with
  | [] => []
  | c :: rest =>
      match k with
      | SingleLine =>
          if ((c =? 10) || (c =? 13))%N then assigned_value k rest
          else c :: assigned_value k rest
      | MultiLine =>
          if (c =? 13)%N then
            match rest with
            | d :: _ =>
                if (d =? 10)%N then assigned_value k rest
                else 10%N :: assigned_value k rest
            | [] => 10%N :: assigned_value k rest
            end
          else c :: assigned_value k rest
      end
  end.

(** The five elements the script looks up, the speech synthesis engine of the
    window ([None] when ["speechSynthesis" in window] is false, else the
    utterances queued in it), and the log of effects. *)
Record page := {
  messages : list div;
  promptInput_value : jsstring;
  promptInput_kind : text_control;
  speakChk_checked : bool;
  micBtn_classList : list jsstring;
  micBtn_disabled : bool;
  micBtn_title : jsstring;
  speechSynthesis : option (list utterance);
  log : list effect
}.

Definition emit (e : effect) (p : page) : page :=
  {| messages := messages p;
     promptInput_value := promptInput_value p;
     promptInput_kind := promptInput_kind p;
     speakChk_checked := speakChk_checked p;
     micBtn_classList := micBtn_classList p;
     micBtn_disabled := micBtn_disabled p;
     micBtn_title := micBtn_title p;
     speechSynthesis := speechSynthesis p;
     log := log p ++ [e] |}.

Definition appendChild (d : div) (p : page) : page :=
  emit (AppendChild d)
  {| messages := messages p ++ [d];
     promptInput_value := promptInput_value p;
     promptInput_kind := promptInput_kind p;
     speakChk_checked := speakChk_checked p;
     micBtn_classList := micBtn_classList p;
     micBtn_disabled := micBtn_disabled p;
     micBtn_title := micBtn_title p;
     speechSynthesis := speechSynthesis p;
     log := log p |}.

Definition store_prompt (v : jsstring) (p : page) : page :=
  {| messages := messages p;
     promptInput_value := v;
     promptInput_kind := promptInput_kind p;
     speakChk_checked := speakChk_checked p;
     micBtn_classList := micBtn_classList p;
     micBtn_disabled := micBtn_disabled p;
     micBtn_title := micBtn_title p;
     speechSynthesis := speechSynthesis p;
     log := log p |}.

(** [promptInput.value = v]: the assignment is logged with the string
    assigned, the control holds what it keeps of it. *)
Definition set_promptInput_value (v : jsstring) (p : page) : page :=
  emit (SetPromptValue v)
    (store_prompt (assigned_value (promptInput_kind p) v) p).

Definition store_checked (b : bool) (p : page) : page :=
  {| messages := messages p;
     promptInput_value := promptInput_value p;
     promptInput_kind := promptInput_kind p;
     speakChk_checked := b;
     micBtn_classList := micBtn_classList p;
     micBtn_disabled := micBtn_disabled p;
     micBtn_title := micBtn_title p;
     speechSynthesis := speechSynthesis p;
     log := log p |}.

Definition store_classList (l : list jsstring) (p : page) : page :=
  {| messages := messages p;
     promptInput_value := promptInput_value p;
     promptInput_kind := promptInput_kind p;
     speakChk_checked := speakChk_checked p;
     micBtn_classList := l;
     micBtn_disabled := micBtn_disabled p;
     micBtn_title := micBtn_title p;
     speechSynthesis := speechSynthesis p;
     log := log p |}.

Definition contains (c : jsstring) (l : list jsstring) : bool :=
  existsb (JsString.eqb c) l.

(** [micBtn.classList.add(c)]: a token list holds a token once. *)
Definition micBtn_classList_add (c : jsstring) (p : page) : page :=
  emit (MicClassAdd c)
    (store_classList
       (if contains c (micBtn_classList p) then micBtn_classList p
        else micBtn_classList p ++ [c]) p).

(** [micBtn.classList.remove(c)] *)
Definition micBtn_classList_remove (c : jsstring) (p : page) : page :=
  emit (MicClassRemove c)
    (store_classList
       (filter (fun t => negb (JsString.eqb c t)) (micBtn_classList p)) p).

Definition set_micBtn_disabled (b : bool) (p : page) : page :=
  emit (SetMicDisabled b)
  {| messages := messages p;
     promptInput_value := promptInput_value p;
     promptInput_kind := promptInput_kind p;
     speakChk_checked := speakChk_checked p;
     micBtn_classList := micBtn_classList p;
     micBtn_disabled := b;
     micBtn_title := micBtn_title p;
     speechSynthesis := speechSynthesis p;
     log := log p |}.

Definition set_micBtn_title (t : jsstring) (p : page) : page :=
  emit (SetMicTitle t)
  {| messages := messages p;
     promptInput_value := promptInput_value p;
     promptInput_kind := promptInput_kind p;
     speakChk_checked := speakChk_checked p;
     micBtn_classList := micBtn_classList p;
     micBtn_disabled := micBtn_disabled p;
     micBtn_title := t;
     speechSynthesis := speechSynthesis p;
     log := log p |}.

Definition store_queue (q : option (list utterance)) (p : page) : page :=
  {| messages := messages p;
     promptInput_value := promptInput_value p;
     promptInput_kind := promptInput_kind p;
     speakChk_checked := speakChk_checked p;
     micBtn_classList := micBtn_classList p;
     micBtn_disabled := micBtn_disabled p;
     micBtn_title := micBtn_title p;
     speechSynthesis := q;
     log := log p |}.

(** [window.speechSynthesis.cancel()] removes every utterance from the
    queue, the one being spoken included. *)
Definition speechSynthesis_cancel (p : page) : page :=
  emit SynthesisCancel
    (store_queue (option_map (fun _ => []) (speechSynthesis p)) p).

(** [window.speechSynthesis.speak(u)] adds [u] to the end of the queue. *)
Definition speechSynthesis_speak (u : utterance) (p : page) : page :=
  emit (SynthesisSpeak u)
    (store_queue (option_map (fun q => q ++ [u]) (speechSynthesis p)) p).

(** ** Promises *)

(** The two promises the script awaits. *)
Inductive await_point :=
| AtFetch            (* const res = await fetch(...) *)
| AtJson.            (* const data = await res.json() *)

(** An [async] function call: suspended at an [await], or settled. *)
Inductive async (A : Type) :=
| Await (pt : await_point)
| Done (r : outcome A).
Arguments Await {A} pt.
Arguments Done {A} r.

(** A [Response]; the script looks only at its body, through [res.json()]. *)
Record response := { status : N }.

(** ** The script *)

Definition fallback_answer : jsstring := js "Sorry, I couldn't understand.".

(** [messages.appendChild(div); messages.scrollTop = messages.scrollHeight] *)
Definition append_and_scroll (d : div) (p : page) : page :=
  emit ScrollToEnd (appendChild d p).

(** [addMsg(text, who = "user")].  The two conversions to a string are made
    on the new element before it is appended; when one throws, the page is
    not touched. *)
Definition addMsg (text : value) (who : value) (p : page) : outcome page :=
  let who := match who with VUndefined => VString (js "user") | _ => who end in
  who_text <- ToString who ;;
  text <- to_text_content text ;;
  Fulfilled
    (append_and_scroll {| className := js "msg " ++ who_text;
                          textContent := text |} p).

(** The request [askServer] makes for [question]. *)
Definition ask_request (question : jsstring) : request :=
  {| url := js "/ask";
     method := js "POST";
     headers := [(js "Content-Type", js "application/json")];
     body := Json.stringify_question question |}.

(** [askServer(question)], up to its first [await]. *)
Definition askServer (question : jsstring) (p : page) : page * async value :=
  (emit (Fetch (ask_request question)) p, Await AtFetch).

(** [askServer] when the promise of [fetch] settles: a rejection is thrown at
    the [await] and rejects the call; otherwise [res.json()] is awaited. *)
Definition askServer_on_fetch (r : outcome response) : async value :=
  match r with
  | Rejected e => Done (Rejected e)
  | Fulfilled _ => Await AtJson
  end.

(** [data.answer]: reading a property of [null] or [undefined] throws a
    [TypeError]; an object gives its member or [undefined]; a boolean, a
    number, a string and an array have no property of that name. *)
Definition get_answer (data : value) : outcome value :=
  match data with
  | VUndefined | VNull => Rejected TypeError
  | VObject props =>
      Fulfilled (match own_prop (js "answer") props with
                 | Some v => v
                 | None => VUndefined
                 end)
  | VBool _ | VNumber _ | VString _ | VArray _ => Fulfilled VUndefined
  end.

(** [askServer] when the promise of [res.json()] settles. *)
Definition askServer_on_json (r : outcome value) : async value :=
  match r with
  | Rejected e => Done (Rejected e)
  | Fulfilled data =>
      match get_answer data with
      | Rejected e => Done (Rejected e)
      | Fulfilled answer =>
          Done (Fulfilled (js_or answer (VString fallback_answer)))
      end
  end.

(** ["speechSynthesis" in window] *)
Definition speechSynthesis_in_window (p : page) : bool :=
  match speechSynthesis p with Some _ => true | None => false end.

(** [handleSend] from the point where [askServer(q)] has an answer: the page
    it leaves and how the call completes. *)
Definition handleSend_answered (ans : value) (p : page) : page * outcome unit :=
  match addMsg ans (VString (js "bot")) p with
  | Rejected e => (p, Rejected e)
  | Fulfilled p =>
      if speakChk_checked p && speechSynthesis_in_window p then
        match ToString ans with          (* new SpeechSynthesisUtterance(ans) *)
        | Rejected e => (p, Rejected e)
        | Fulfilled text =>
            let u := {| utterance_text := text;
                        utterance_lang := js "en-IN" |} in
            let p := speechSynthesis_cancel p in
            (speechSynthesis_speak u p, Fulfilled tt)
        end
      else (p, Fulfilled tt)
  end.

(** [handleSend] at [await askServer(q)], given where that call stands. *)
Definition handleSend_await (ask : async value) (p : page) : page * async unit :=
  match ask with
  | Await pt => (p, Await pt)
  | Done (Rejected e) => (p, Done (Rejected e))
  | Done (Fulfilled ans) =>
      let (p, r) := handleSend_answered ans p in (p, Done r)
  end.

(** [handleSend()], up to its first suspension. *)
Definition handleSend (p : page) : page * async unit :=
  let q := JsString.trim (promptInput_value p) in
  if JsString.is_empty q then (p, Done (Fulfilled tt))
  else
    match addMsg (VString q) (VString (js "user")) p with
    | Rejected e => (p, Done (Rejected e))
    | Fulfilled p =>
        let p := set_promptInput_value [] p in
        let (p, ask) := askServer q p in
        handleSend_await ask p
    end.

(** [handleSend], resumed when the promise of [fetch] settles. *)
Definition handleSend_on_fetch (r : outcome response) (p : page)
  : page * async unit :=
  handleSend_await (askServer_on_fetch r) p.

(** [handleSend], resumed when the promise of [res.json()] settles. *)
Definition handleSend_on_json (r : outcome value) (p : page)
  : page * async unit :=
  handleSend_await (askServer_on_json r) p.

(** One call of [handleSend] run through with nothing in between: the
    outcome of [fetch] and, when it gives a response, of [res.json()]. *)
Definition handleSend_run (rf : outcome response) (rj : outcome value)
  (p : page) : page * async unit :=
  match handleSend p with
  | (p1, Await AtFetch) =>
      match handleSend_on_fetch rf p1 with
      | (p2, Await AtJson) => handleSend_on_json rj p2
      | other => other
      end
  | other => other
  end.

(** ** The top level of the script and its listeners *)

(** What the script configures on the recognition object it creates, and
    which of the two constructors made it. *)
Record recognizer := {
  lang : jsstring;
  interimResults : bool;
  maxAlternatives : N;
  webkit_prefixed : bool
}.

(** What [window] has under one of the two names of the recognition
    constructor: no such property; the recognition constructor; or some other
    value, which is no constructor and is truthy or falsy ([undefined], for
    one). *)
Inductive window_property :=
| NotInWindow
| RecognitionConstructor
| OtherValue (is_truthy : bool).

(** What the window offers for speech input. *)
Record window_speech_input := {
  SpeechRecognition : window_property;
  webkitSpeechRecognition : window_property
}.

(** [name in window] *)
Definition in_window (g : window_property) : bool :=
  match g with
  | NotInWindow => false
  | RecognitionConstructor | OtherValue _ => true
  end.

Definition SpeechRecognition_in_window (w : window_speech_input) : bool :=
  in_window (SpeechRecognition w).

Definition webkitSpeechRecognition_in_window (w : window_speech_input) : bool :=
  in_window (webkitSpeechRecognition w).

(** [ToBoolean] of [window.name]; a property that is not there reads as
    [undefined]. *)
Definition property_truthy (g : window_property) : bool :=
  match g with
  | NotInWindow => false
  | RecognitionConstructor => true
  | OtherValue is_truthy => is_truthy
  end.

(** [window.SpeechRecognition || window.webkitSpeechRecognition] *)
Definition selected_SR (w : window_speech_input) : window_property :=
  if property_truthy (SpeechRecognition w) then SpeechRecognition w
  else webkitSpeechRecognition w.

(** The running script: the page, the module variable [recognition] ([None]
    for [null], in which case no listener of the microphone exists), and every
    call of [handleSend] made so far with where it stands. *)
Record world := {
  doc : page;
  recognition : option recognizer;
  sends : list (async unit)
}.

(** The script from its first line to its last, on the page as loaded.
    When [new SR()] throws, [SR] being no constructor, the script ends there:
    [recognition] is still [null], the microphone has no listener and the
    [else] branch is not run either. *)
Definition startup (w : window_speech_input) (p : page) : world :=
  if webkitSpeechRecognition_in_window w || SpeechRecognition_in_window w then
    match selected_SR w with
    | RecognitionConstructor =>
        {| doc := p;
           recognition :=
             Some {| lang := js "en-IN";
                     interimResults := false;
                     maxAlternatives := 1;
                     webkit_prefixed :=
                       negb (property_truthy (SpeechRecognition w)) |};
           sends := [] |}
    | NotInWindow | OtherValue _ =>
        {| doc := p; recognition := None; sends := [] |}
    end
  else
    {| doc := set_micBtn_title (js "Voice input not supported in this browser")
                (set_micBtn_disabled true p);
       recognition := None;
       sends := [] |}.

(** How the top level of the script completes. *)
Definition startup_completion (w : window_speech_input) : outcome unit :=
  if webkitSpeechRecognition_in_window w || SpeechRecognition_in_window w then
    match selected_SR w with
    | RecognitionConstructor => Fulfilled tt
    | NotInWindow | OtherValue _ => Rejected TypeError
    end
  else Fulfilled tt.

(** A [SpeechRecognitionAlternative]. *)
Record alternative := { transcript : jsstring }.

Inductive event :=
| SendClick                                   (* click on #send *)
| PromptKeydown (key : jsstring)              (* keydown in #prompt *)
| UserEdits (v : jsstring)                    (* an edit by the user, after which #prompt holds v *)
| UserSetsSpeak (b : bool)                    (* the user sets the #speak checkbox *)
| MicMousedown                                (* mousedown on #mic *)
| MicMouseup                                  (* mouseup on #mic *)
| RecognitionResult (results : list (list alternative))
| RecognitionErrorEvent
| RecognitionEnd
| FetchSettles (i : nat) (r : outcome response)   (* for the [i]-th call of handleSend *)
| JsonSettles (i : nat) (r : outcome value)       (* for the [i]-th call of handleSend *)
| UtteranceEnds.                              (* the engine finished speaking an utterance *)

Definition with_doc (p : page) (w : world) : world :=
  {| doc := p; recognition := recognition w; sends := sends w |}.

(** A listener that calls [handleSend()] and drops the promise. *)
Definition call_handleSend (w : world) : world :=
  let (p, st) := handleSend (doc w) in
  {| doc := p; recognition := recognition w; sends := sends w ++ [st] |}.

Fixpoint update_nth {A} (i : nat) (x : A) (l : list A) : list A :=
  match i, l with
  | O, _ :: l' => x :: l'
  | S i', y :: l' => y :: update_nth i' x l'
  | _, [] => []
  end.

(** [e.results[0][0].transcript]; an index past the end gives [undefined],
    and reading a property of it throws. *)
Definition first_transcript (results : list (list alternative))
  : outcome jsstring :=
  match results with
  | (alt :: _) :: _ => Fulfilled (transcript alt)
  | _ => Rejected TypeError
  end.

Definition on_mousedown (w : world) : world :=
  with_doc (emit RecognitionStart
              (micBtn_classList_add (js "rec") (doc w))) w.

Definition on_mouseup (w : world) : world :=
  with_doc (emit RecognitionStop (doc w)) w.

Definition recognition_onresult (results : list (list alternative))
  (w : world) : world :=
  match first_transcript results with
  | Rejected _ => w
  | Fulfilled text =>
      call_handleSend (with_doc (set_promptInput_value text (doc w)) w)
  end.

Definition recognition_onerror (w : world) : world :=
  with_doc (micBtn_classList_remove (js "rec") (doc w)) w.

Definition recognition_onend (w : world) : world :=
  with_doc (micBtn_classList_remove (js "rec") (doc w)) w.

(** The reaction of the running script to one event. *)
Definition step (ev : event) (w : world) : world :=
  match ev with
  | SendClick => call_handleSend w
  | PromptKeydown key =>
      if JsString.eqb key (js "Enter") then call_handleSend w else w
  | UserEdits v => with_doc (store_prompt v (doc w)) w
  | UserSetsSpeak b => with_doc (store_checked b (doc w)) w
  | MicMousedown =>
      match recognition w with Some _ => on_mousedown w | None => w end
  | MicMouseup =>
      match recognition w with Some _ => on_mouseup w | None => w end
  | RecognitionResult results =>
      match recognition w with
      | Some _ => recognition_onresult results w
      | None => w
      end
  | RecognitionErrorEvent =>
      match recognition w with Some _ => recognition_onerror w | None => w end
  | RecognitionEnd =>
      match recognition w with Some _ => recognition_onend w | None => w end
  | FetchSettles i r =>
      match nth_error (sends w) i with
      | Some (Await AtFetch) =>
          let (p, st) := handleSend_on_fetch r (doc w) in
          {| doc := p; recognition := recognition w;
             sends := update_nth i st (sends w) |}
      | _ => w
      end
  | JsonSettles i r =>
      match nth_error (sends w) i with
      | Some (Await AtJson) =>
          let (p, st) := handleSend_on_json r (doc w) in
          {| doc := p; recognition := recognition w;
             sends := update_nth i st (sends w) |}
      | _ => w
      end
  | UtteranceEnds =>
      with_doc (store_queue (option_map (@tl utterance) (speechSynthesis (doc w)))
                  (doc w)) w
  end.

Definition run (evs : list event) (w : world) : world :=
  fold_left (fun w ev => step ev w) evs w.

(** The recording indicator: the class [rec] on the microphone button. *)
Definition recording (w : world) : bool :=
  contains (js "rec") (micBtn_classList (doc w)).

(** ** What is observed of a log *)

(** The requests sent to the network. *)
Fixpoint requests (l : list effect) : list request :=
  match l with
  | [] => []
  | Fetch r :: l' => r :: requests l'
  | _ :: l' => requests l'
  end.

(** The calls made to the speech synthesis engine. *)
Definition is_synthesis_call (e : effect) : bool :=
  match e with
  | SynthesisCancel | SynthesisSpeak _ => true
  | _ => false
  end.

Definition synthesis_calls (l : list effect) : list effect :=
  filter is_synthesis_call l.

(** The calls made to the recognition engine. *)
Definition is_recognition_call (e : effect) : bool :=
  match e with
  | RecognitionStart | RecognitionStop => true
  | _ => false
  end.

Definition recognition_calls (l : list effect) : list effect :=
  filter is_recognition_call l.

(** A request whose body carries a question that is not empty and has no
    white space to trim. *)
Definition well_formed_question (r : request) : Prop :=
  exists q, Json.read_question (body r) = Some q
            /\ q <> [] /\ JsString.trim q = q.

Definition div_eq_dec (a b : div) : {a = b} + {a <> b}.
Proof. repeat decide equality. Defined.

Definition effect_eq_dec (a b : effect) : {a = b} + {a <> b}.
Proof.
  decide equality;
    try apply div_eq_dec;
    try apply (list_eq_dec N.eq_dec);
    try apply Bool.bool_dec;
    repeat decide equality.
Defined.

(** Position of the first occurrence of an effect in a log. *)
Fixpoint position (e : effect) (l : list effect) : option nat :=
  match l with
  | [] => None
  | x :: l' =>
      if effect_eq_dec e x then Some O
      else option_map S (position e l')
  end.

(** Both effects occur in the log, the first one earlier than the second. *)
Definition happens_before (a b : effect) (l : list effect) : bool :=
  match position a l, position b l with
  | Some i, Some j => Nat.ltb i j
  | _, _ => false
  end.

(** The messages of the two authors, as [addMsg] renders them. *)
Definition user_message (text : jsstring) : div :=
  {| className := js "msg user"; textContent := text |}.

Definition bot_message (text : jsstring) : div :=
  {| className := js "msg bot"; textContent := text |}.

(** [askServer] run through with nothing in between. *)
Definition askServer_run (rf : outcome response) (rj : outcome value)
  : async value :=
  match askServer_on_fetch rf with
  | Await AtJson => askServer_on_json rj
  | other => other
  end.

(** A page as loaded, with nothing typed, the checkbox as given, a speech
    synthesis engine at rest, and the prompt holding [text]. *)
Definition page_with_prompt (text : jsstring) (speak : bool) : page :=
  {| messages := [];
     promptInput_value := text;
     promptInput_kind := SingleLine;
     speakChk_checked := speak;
     micBtn_classList := [];
     micBtn_disabled := false;
     micBtn_title := [];
     speechSynthesis := Some [];
     log := [] |}.

Definition ok_response : outcome response := Fulfilled {| status := 200 |}.

(** The JSON object with the one member [answer]. *)
Definition answer_object_of (answer : value) : value :=
  VObject [(js "answer", answer)].

Definition answer_object (text : jsstring) : value :=
  answer_object_of (VString text).

(** A page on which the engine is still speaking an earlier answer. *)
Definition page_still_speaking : page :=
  store_queue
    (Some [{| utterance_text := js "earlier answer";
              utterance_lang := js "en-IN" |}])
    (page_with_prompt [] true).

(** The order of the steps of a send as the specification lists them: the
    prompt is cleared, the user message rendered, the request made, the bot
    message rendered. *)
Definition send_order_as_specified (q bot_text : jsstring) (l : list effect)
  : bool :=
  happens_before (SetPromptValue []) (AppendChild (user_message q)) l
  && happens_before (AppendChild (user_message q)) (Fetch (ask_request q)) l
  && happens_before (Fetch (ask_request q)) (AppendChild (bot_message bot_text)) l.

(** The order with the first two steps exchanged: the user message is
    rendered, the prompt cleared, the request made, the bot message
    rendered. *)
Definition send_order_render_first (q bot_text : jsstring) (l : list effect)
  : bool :=
  happens_before (AppendChild (user_message q)) (SetPromptValue []) l
  && happens_before (SetPromptValue []) (Fetch (ask_request q)) l
  && happens_before (Fetch (ask_request q)) (AppendChild (bot_message bot_text)) l.

(** What a part of a call of [handleSend] may do: it adds effects to the log,
    none of them a call of the recognition engine, every request among them
    with a well formed question, and leaves the microphone button alone. *)
Definition modest (p p' : page) : Prop :=
  micBtn_classList p' = micBtn_classList p
  /\ exists added,
      log p' = log p ++ added
      /\ recognition_calls added = []
      /\ Forall well_formed_question (requests added).

(** A window with the standard recognition constructor, and one with
    neither constructor. *)
Definition window_with_recognition : window_speech_input :=
  {| SpeechRecognition := RecognitionConstructor;
     webkitSpeechRecognition := NotInWindow |}.

Definition window_without_recognition : window_speech_input :=
  {| SpeechRecognition := NotInWindow;
     webkitSpeechRecognition := NotInWindow |}.

(** A window with the prefixed constructor only, and one where the
    unprefixed name is there but holds no constructor. *)
Definition window_with_prefixed_recognition : window_speech_input :=
  {| SpeechRecognition := NotInWindow;
     webkitSpeechRecognition := RecognitionConstructor |}.

Definition window_with_undefined_recognition : window_speech_input :=
  {| SpeechRecognition := OtherValue false;
     webkitSpeechRecognition := NotInWindow |}.

(** The members of an object have no member of the given key. *)
Definition lacks_key (key : jsstring) (props : list (jsstring * value)) : bool :=
  forallb (fun member => negb (JsString.eqb (fst member) key)) props.

(** A page like a given one, with a multi-line prompt. *)
Definition with_multi_line_prompt (p : page) : page :=
  {| messages := messages p;
     promptInput_value := promptInput_value p;
     promptInput_kind := MultiLine;
     speakChk_checked := speakChk_checked p;
     micBtn_classList := micBtn_classList p;
     micBtn_disabled := micBtn_disabled p;
     micBtn_title := micBtn_title p;
     speechSynthesis := speechSynthesis p;
     log := log p |}.

(** The code unit is one of the line breaks LF and CR. *)
Definition is_line_break (c : JsString.code_unit) : bool :=
  ((c =? 10) || (c =? 13))%N.

(** Some code unit of the string is not white space. *)
Definition has_visible_text (s : jsstring) : bool :=
  existsb (fun c => negb (JsString.is_white_space c)) s.

(** The texts of the user messages among some children of [#messages]. *)
Fixpoint user_texts (l : list div) : list jsstring :=
  match l with
  | [] => []
  | d :: l' =>
      if JsString.eqb (className d) (js "msg user")
      then textContent d :: user_texts l'
      else user_texts l'
  end.

(** A child of [#messages] rendered by one of the two calls of [addMsg]. *)
Definition is_chat_message (d : div) : bool :=
  JsString.eqb (className d) (js "msg user")
  || JsString.eqb (className d) (js "msg bot").

(** The number of utterances in the queue of the synthesis engine. *)
Definition queued_utterances (p : page) : nat :=
  match speechSynthesis p with
  | Some queue => List.length queue
  | None => O
  end.

(** The event is the user setting the speak checkbox on. *)
Definition sets_speak_on (ev : event) : bool :=
  match ev with
  | UserSetsSpeak true => true
  | _ => false
  end.

(** What holds between the page before and after any reaction of the
    script: the microphone button keeps its [disabled] and [title], the
    window keeps or lacks its synthesis engine, the transcript grows by chat
    messages only, the requests made are those for the user messages added,
    in order, the engine is not called when the checkbox is off or the engine
    absent, and a queue of at most one utterance stays so. *)
Definition script_effect (p p' : page) : Prop :=
  micBtn_disabled p' = micBtn_disabled p
  /\ micBtn_title p' = micBtn_title p
  /\ speechSynthesis_in_window p' = speechSynthesis_in_window p
  /\ (exists added,
        messages p' = messages p ++ added
        /\ forallb is_chat_message added = true
        /\ requests (log p')
           = requests (log p) ++ map ask_request (user_texts added))
  /\ (speakChk_checked p = false \/ speechSynthesis p = None ->
      synthesis_calls (log p') = synthesis_calls (log p))
  /\ (queued_utterances p <= 1 -> queued_utterances p' <= 1).

(** * Properties *)

(** ** Trimming *)

Section Trim.
Import JsString.

Lemma trimStart_starts_clean (s : t) : starts_clean (trimStart s).
Proof.
  induction s as [|c s IH]; simpl; [exact I|].
  destruct (is_white_space c) eqn:E; [exact IH | simpl; exact E].
Qed.

Lemma trimStart_of_clean (s : t) : starts_clean s -> trimStart s = s.
Proof.
  destruct s as [|c s]; simpl; [reflexivity|].
  intros ->. reflexivity.
Qed.

Lemma trimStart_idempotent (s : t) : trimStart (trimStart s) = trimStart s.
Proof. apply trimStart_of_clean, trimStart_starts_clean. Qed.

Lemma trimStart_snoc_clean (l : t) (c : code_unit) :
  is_white_space c = false ->
  exists l1, trimStart (l ++ [c]) = l1 ++ [c].
Proof.
  intros Hc. induction l as [|x l [l1 IH]]; simpl.
  - rewrite Hc. exists []. reflexivity.
  - destruct (is_white_space x).
    + exists l1. exact IH.
    + exists (x :: l). reflexivity.
Qed.

Lemma trimEnd_keeps_clean (s : t) : starts_clean s -> starts_clean (trimEnd s).
Proof.
  destruct s as [|c s]; simpl; intros Hc; [exact I|].
  unfold trimEnd. simpl rev.
  destruct (trimStart_snoc_clean (rev s) c Hc) as [l1 ->].
  rewrite rev_app_distr. simpl. exact Hc.
Qed.

Lemma trimEnd_idempotent (s : t) : trimEnd (trimEnd s) = trimEnd s.
Proof.
  unfold trimEnd. rewrite rev_involutive, trimStart_idempotent. reflexivity.
Qed.

Lemma trim_starts_clean (s : t) : starts_clean (trim s).
Proof. apply trimEnd_keeps_clean, trimStart_starts_clean. Qed.

(** Trimming a trimmed string changes nothing. *)
Lemma trim_idempotent (s : t) : trim (trim s) = trim s.
Proof.
  unfold trim at 1.
  rewrite (trimStart_of_clean (trim s) (trim_starts_clean s)).
  unfold trim. apply trimEnd_idempotent.
Qed.

Lemma trimStart_nil_iff (s : t) :
  trimStart s = [] <-> forallb is_white_space s = true.
Proof.
  induction s as [|c s IH]; simpl; [tauto|].
  destruct (is_white_space c); simpl; [exact IH|].
  split; discriminate.
Qed.

Lemma forallb_rev {A} (f : A -> bool) (l : list A) :
  forallb f (rev l) = forallb f l.
Proof.
  induction l as [|x l IH]; simpl; [reflexivity|].
  rewrite forallb_app, IH. simpl. rewrite andb_true_r. apply andb_comm.
Qed.

(** A string trims to the empty string exactly when all of it is white
    space (the empty string included). *)
Lemma trim_nil_iff (s : t) :
  trim s = [] <-> forallb is_white_space s = true.
Proof.
  rewrite <- trimStart_nil_iff. unfold trim, trimEnd. split.
  - intros H.
    assert (Hr : trimStart (rev (trimStart s)) = []).
    { rewrite <- (rev_involutive (trimStart (rev (trimStart s)))), H.
      reflexivity. }
    apply trimStart_nil_iff in Hr. rewrite forallb_rev in Hr.
    apply trimStart_nil_iff in Hr. rewrite trimStart_idempotent in Hr.
    exact Hr.
  - intros ->. reflexivity.
Qed.

Lemma is_empty_true (s : t) : is_empty s = true <-> s = [].
Proof. destruct s; simpl; split; congruence. Qed.

Lemma is_empty_false (s : t) : is_empty s = false <-> s <> [].
Proof. destruct s; simpl; split; congruence. Qed.

End Trim.

(** ** The request body can be read back *)

Section JsonRoundTrip.
Import Json.

Lemma hex_value_hex_digit (d : N) :
  (d < 16)%N -> hex_value (hex_digit d) = Some d.
Proof.
  intros H.
  assert (Hd : In d [0;1;2;3;4;5;6;7;8;9;10;11;12;13;14;15]%N).
  { simpl. lia. }
  simpl in Hd.
  repeat (destruct Hd as [<-|Hd]; [reflexivity|]). contradiction.
Qed.

Lemma hex_digits_value (c : N) :
  (c < 65536)%N ->
  (4096 * (c / 4096) + 256 * ((c / 256) mod 16)
   + 16 * ((c / 16) mod 16) + c mod 16 = c)%N.
Proof.
  intros H.
  replace (c / 4096)%N with (((c / 16) / 16) / 16)%N
    by (rewrite !N.Div0.div_div; reflexivity).
  replace (c / 256)%N with ((c / 16) / 16)%N
    by (rewrite !N.Div0.div_div; reflexivity).
  pose proof (N.div_mod c 16) as H1.
  pose proof (N.div_mod (c / 16) 16) as H2.
  pose proof (N.div_mod (c / 16 / 16) 16) as H3.
  generalize dependent (c / 16 / 16 / 16)%N.
  generalize dependent ((c / 16 / 16) mod 16)%N.
  generalize dependent (c / 16 / 16)%N.
  generalize dependent ((c / 16) mod 16)%N.
  generalize dependent (c / 16)%N.
  generalize dependent (c mod 16)%N.
  intros. lia.
Qed.

Lemma read_chars_UnicodeEscape (c : N) (rest : jsstring) :
  (c < 65536)%N ->
  read_chars (UnicodeEscape c ++ rest) = cons_parsed c (read_chars rest).
Proof.
  intros H. unfold UnicodeEscape.
  cbn [app read_chars].
  change (reverse_solidus =? quotation_mark)%N with false.
  change (reverse_solidus =? reverse_solidus)%N with true.
  change (117 =? 117)%N with true. cbv iota.
  rewrite (@hex_value_hex_digit (c / 4096)%N)
    by (apply N.Div0.div_lt_upper_bound; exact H).
  rewrite !hex_value_hex_digit by (apply N.mod_upper_bound; discriminate).
  rewrite hex_digits_value by exact H. reflexivity.
Qed.

Lemma read_chars_literal (c : N) (rest : jsstring) :
  c <> quotation_mark -> c <> reverse_solidus -> (32 <= c)%N ->
  read_chars (c :: rest) = cons_parsed c (read_chars rest).
Proof.
  intros Hq Hr Hc. cbn [read_chars].
  destruct (N.eqb_spec c quotation_mark); [contradiction|].
  destruct (N.eqb_spec c reverse_solidus); [contradiction|].
  destruct (N.ltb_spec c 32); [lia|]. reflexivity.
Qed.

Lemma read_chars_surrogate (c : N) (rest : jsstring) :
  is_leading_surrogate c || is_trailing_surrogate c = true ->
  read_chars (c :: rest) = cons_parsed c (read_chars rest).
Proof.
  unfold is_leading_surrogate, is_trailing_surrogate,
    quotation_mark, reverse_solidus.
  intros H. apply read_chars_literal;
    unfold quotation_mark, reverse_solidus; lia.
Qed.

Lemma read_chars_quote_unit (c : N) (rest : jsstring) :
  read_chars (quote_unit c ++ rest) = cons_parsed c (read_chars rest).
Proof.
  unfold quote_unit.
  repeat match goal with
         | |- context [if (c =? ?k)%N then _ else _] =>
             destruct (N.eqb_spec c k); [subst c; reflexivity|]
         end.
  destruct (N.ltb_spec c 32).
  - apply read_chars_UnicodeEscape. lia.
  - apply read_chars_literal;
      unfold quotation_mark, reverse_solidus; lia.
Qed.

Lemma quote_body_cons (c : N) (rest : jsstring) :
  quote_body (c :: rest) =
  if is_leading_surrogate c then
    match rest with
    | d :: rest' =>
        if is_trailing_surrogate d then c :: d :: quote_body rest'
        else UnicodeEscape c ++ quote_body rest
    | [] => UnicodeEscape c
    end
  else if is_trailing_surrogate c then UnicodeEscape c ++ quote_body rest
  else quote_unit c ++ quote_body rest.
Proof. reflexivity. Qed.

Lemma surrogate_is_code_unit (c : N) :
  is_leading_surrogate c || is_trailing_surrogate c = true ->
  (c < 65536)%N.
Proof. unfold is_leading_surrogate, is_trailing_surrogate. lia. Qed.

(** The reader undoes [quote_body]; shown for a string and for the string
    with one more unit in front, as [quote_body] looks two units ahead. *)
Lemma read_chars_quote_body_two_steps (s : jsstring) :
  (forall rest,
      read_chars (quote_body s ++ quotation_mark :: rest) = Some (s, rest))
  /\ (forall c rest,
         read_chars (quote_body (c :: s) ++ quotation_mark :: rest)
         = Some (c :: s, rest)).
Proof.
  induction s as [|x s [IH1 IH2]].
  - split; [reflexivity|].
    intros c rest. rewrite quote_body_cons.
    destruct (is_leading_surrogate c) eqn:Hl;
      [|destruct (is_trailing_surrogate c) eqn:Ht].
    + rewrite read_chars_UnicodeEscape; [reflexivity|].
      apply surrogate_is_code_unit. rewrite Hl. reflexivity.
    + rewrite app_nil_r, read_chars_UnicodeEscape; [reflexivity|].
      apply surrogate_is_code_unit. rewrite Ht. apply orb_true_r.
    + rewrite app_nil_r, read_chars_quote_unit. reflexivity.
  - split; [exact (IH2 x)|].
    intros c rest. rewrite quote_body_cons.
    destruct (is_leading_surrogate c) eqn:Hl;
      [destruct (is_trailing_surrogate x) eqn:Htx
      |destruct (is_trailing_surrogate c) eqn:Ht].
    + cbn [app].
      rewrite read_chars_surrogate by (rewrite Hl; reflexivity).
      rewrite read_chars_surrogate by (rewrite Htx; apply orb_true_r).
      rewrite IH1. reflexivity.
    + rewrite <- app_assoc, read_chars_UnicodeEscape, IH2; [reflexivity|].
      apply surrogate_is_code_unit. rewrite Hl. reflexivity.
    + rewrite <- app_assoc, read_chars_UnicodeEscape, IH2; [reflexivity|].
      apply surrogate_is_code_unit. rewrite Ht. apply orb_true_r.
    + rewrite <- app_assoc, read_chars_quote_unit, IH2. reflexivity.
Qed.

(** A quoted string reads back as the string it was made from. *)
Lemma read_string_QuoteJSONString (s rest : jsstring) :
  read_string (QuoteJSONString s ++ rest) = Some (s, rest).
Proof.
  unfold QuoteJSONString, read_string. cbn [app].
  rewrite N.eqb_refl, <- app_assoc. cbn [app].
  apply (proj1 (read_chars_quote_body_two_steps s)).
Qed.

(** The body the script sends reads back as the question it was given. *)
Lemma read_question_stringify (q : jsstring) :
  read_question (stringify_question q) = Some q.
Proof.
  unfold read_question, stringify_question.
  change (js "{" ++ ?x) with (123%N :: x). cbn [expect].
  rewrite N.eqb_refl, read_string_QuoteJSONString.
  change (JsString.eqb (js "question") (js "question")) with true. cbv iota.
  change (js ":" ++ ?x) with (58%N :: x). cbn [expect].
  rewrite N.eqb_refl, read_string_QuoteJSONString. reflexivity.
Qed.

End JsonRoundTrip.

(** ** Sending a question *)

Lemma handleSend_noop (p : page) :
  JsString.trim (promptInput_value p) = [] ->
  handleSend p = (p, Done (Fulfilled tt)).
Proof. unfold handleSend. intros ->. reflexivity. Qed.

Lemma handleSend_proceeds (p : page) :
  JsString.trim (promptInput_value p) <> [] ->
  handleSend p =
  (emit (Fetch (ask_request (JsString.trim (promptInput_value p))))
     (set_promptInput_value []
        (append_and_scroll
           (user_message (JsString.trim (promptInput_value p))) p)),
   Await AtFetch).
Proof.
  intros H. unfold handleSend.
  apply is_empty_false in H. rewrite H. reflexivity.
Qed.

Lemma askServer_run_fulfilled (rf : outcome response) (rj : outcome value)
  (ans : value) :
  askServer_run rf rj = Done (Fulfilled ans) ->
  (exists res, rf = Fulfilled res)
  /\ exists data, rj = Fulfilled data
                 /\ askServer_on_json rj = Done (Fulfilled ans).
Proof.
  unfold askServer_run. destruct rf as [res|e]; simpl; [|discriminate].
  intros H. split; [eauto|].
  destruct rj as [data|e]; simpl in *; [eauto|discriminate].
Qed.

(** What [askServer] returns is truthy: the answer when it is, else the
    fallback string. *)
Lemma askServer_on_json_truthy (rj : outcome value) (ans : value) :
  askServer_on_json rj = Done (Fulfilled ans) -> truthy ans = true.
Proof.
  unfold askServer_on_json. destruct rj as [data|e]; [|discriminate].
  destruct (get_answer data) as [answer|e]; [|discriminate].
  unfold js_or. destruct (truthy answer) eqn:E; intros H; inversion H; subst.
  - exact E.
  - reflexivity.
Qed.

Lemma to_text_content_truthy (v : value) :
  truthy v = true -> to_text_content v = ToString v.
Proof. destruct v; simpl; first [discriminate | reflexivity]. Qed.

(** The last part of an answered [handleSend], for an answer that has a
    rendition as text. *)
Lemma handleSend_answered_rendered (ans : value) (text : jsstring) (p : page) :
  truthy ans = true -> ToString ans = Fulfilled text ->
  handleSend_answered ans p
  = (if speakChk_checked p && speechSynthesis_in_window p
     then speechSynthesis_speak
            {| utterance_text := text; utterance_lang := js "en-IN" |}
            (speechSynthesis_cancel (append_and_scroll (bot_message text) p))
     else append_and_scroll (bot_message text) p,
     Fulfilled tt).
Proof.
  intros Ht Hs. unfold handleSend_answered, addMsg.
  rewrite (to_text_content_truthy ans Ht), Hs. cbn [ToString and_then].
  change (speakChk_checked (append_and_scroll _ p)) with (speakChk_checked p).
  change (speechSynthesis_in_window (append_and_scroll _ p))
    with (speechSynthesis_in_window p).
  destruct (speakChk_checked p && speechSynthesis_in_window p); reflexivity.
Qed.

Lemma messages_handleSend_answered (ans : value) (text : jsstring) (p : page) :
  truthy ans = true -> ToString ans = Fulfilled text ->
  messages (fst (handleSend_answered ans p))
  = messages p ++ [bot_message text].
Proof.
  intros Ht Hs. rewrite (handleSend_answered_rendered ans text p Ht Hs).
  destruct (_ && _); reflexivity.
Qed.

(** An answer that has no rendition as text, such as an object with a member
    [toString], makes [addMsg] throw: no bot message, and the call of
    [handleSend] is rejected. *)
Lemma handleSend_answered_not_rendered (ans : value) (e : error) (p : page) :
  to_text_content ans = Rejected e ->
  handleSend_answered ans p = (p, Rejected e).
Proof.
  intros H. unfold handleSend_answered, addMsg. cbn [ToString and_then].
  rewrite H. reflexivity.
Qed.

Example answer_with_toString_member_is_not_rendered (p : page) :
  handleSend_on_json
    (Fulfilled (answer_object_of (VObject [(js "toString", VBool true)]))) p
  = (p, Done (Rejected TypeError)).
Proof. reflexivity. Qed.

(** C1.  A call of [handleSend] on a prompt that does not trim to the empty
    string, whose call of the service is fulfilled with an answer (one with a
    rendition as text, as every string has), appends one user message when it
    starts and one bot message when the answer arrives, and nothing else: run
    through, the transcript grows by the user message followed by the bot
    message. *)
Theorem handleSend_appends_user_then_bot
  (p : page) (rf : outcome response) (rj : outcome value)
  (ans : value) (text : jsstring) :
  JsString.trim (promptInput_value p) <> [] ->
  askServer_run rf rj = Done (Fulfilled ans) ->
  ToString ans = Fulfilled text ->
  let user := user_message (JsString.trim (promptInput_value p)) in
  let bot := bot_message text in
  exists p1 p2,
    handleSend p = (p1, Await AtFetch)
    /\ messages p1 = messages p ++ [user]
    /\ handleSend_run rf rj p = (p2, Done (Fulfilled tt))
    /\ messages p2 = messages p ++ [user; bot]
    /\ forall p' : page,
        handleSend_on_fetch rf p' = (p', Await AtJson)
        /\ snd (handleSend_on_json rj p') = Done (Fulfilled tt)
        /\ messages (fst (handleSend_on_json rj p')) = messages p' ++ [bot].
Proof.
  intros Hq Hask Htext user bot.
  destruct (askServer_run_fulfilled _ _ _ Hask) as [[res ->] [data [-> Hjson]]].
  pose proof (askServer_on_json_truthy _ _ Hjson) as Htruthy.
  pose proof (handleSend_proceeds p Hq) as Hstart.
  assert (Hresume : forall p' : page,
             handleSend_on_json (Fulfilled data) p'
             = (fst (handleSend_answered ans p'), Done (Fulfilled tt))).
  { intros p'. unfold handleSend_on_json. rewrite Hjson.
    cbn [handleSend_await].
    rewrite (handleSend_answered_rendered ans text p' Htruthy Htext).
    reflexivity. }
  eexists. eexists. split; [exact Hstart|].
  split; [reflexivity|].
  unfold handleSend_run. rewrite Hstart.
  unfold handleSend_on_fetch. cbn [askServer_on_fetch handleSend_await].
  rewrite Hresume.
  split; [reflexivity|].
  split.
  - rewrite (messages_handleSend_answered ans text _ Htruthy Htext).
    cbn. rewrite <- app_assoc. reflexivity.
  - intros p'. split; [reflexivity|]. rewrite Hresume.
    split; [reflexivity|].
    apply (messages_handleSend_answered ans text p' Htruthy Htext).
Qed.

(** The mocked exchange of the specification: question [Hi], response
    [{answer: Hello}]. *)
Lemma handleSend_appends_user_then_bot_witness :
  messages (fst (handleSend_run ok_response
                   (Fulfilled (answer_object (js "Hello")))
                   (page_with_prompt (js "Hi") false)))
  = [user_message (js "Hi"); bot_message (js "Hello")].
Proof.
  destruct (handleSend_appends_user_then_bot
              (page_with_prompt (js "Hi") false) ok_response
              (Fulfilled (answer_object (js "Hello")))
              (VString (js "Hello")) (js "Hello"))
    as (p1 & p2 & _ & _ & Hrun & Hmessages & _).
  - vm_compute. discriminate.
  - vm_compute. reflexivity.
  - reflexivity.
  - rewrite Hrun. exact Hmessages.
Defined.

(** Responses that are not objects: a boolean, a number, a string and an
    array have no [answer] and get the fallback; on [null], reading the
    property throws and the call is rejected. *)
Lemma askServer_on_json_not_object (data : value) :
  match data with
  | VUndefined | VNull =>
      askServer_on_json (Fulfilled data) = Done (Rejected TypeError)
  | VObject _ => True
  | _ => askServer_on_json (Fulfilled data)
         = Done (Fulfilled (VString fallback_answer))
  end.
Proof. destruct data; first [exact I | reflexivity]. Qed.

Lemma handleSend_on_json_string (data : value) (s : jsstring) (p : page) :
  askServer_on_json (Fulfilled data) = Done (Fulfilled (VString s)) ->
  snd (handleSend_on_json (Fulfilled data) p) = Done (Fulfilled tt)
  /\ messages (fst (handleSend_on_json (Fulfilled data) p))
     = messages p ++ [bot_message s].
Proof.
  intros Hjson.
  pose proof (askServer_on_json_truthy _ _ Hjson) as Htruthy.
  unfold handleSend_on_json. rewrite Hjson. cbn [handleSend_await].
  rewrite (handleSend_answered_rendered (VString s) s p Htruthy eq_refl).
  split; [reflexivity|]. cbn [fst]. destruct (_ && _); reflexivity.
Qed.

(** Looking up a key among the members of an object. *)
Lemma own_prop_absent (key : jsstring) (props : list (jsstring * value)) :
  lacks_key key props = true -> own_prop key props = None.
Proof.
  induction props as [|[k v] props IH]; [reflexivity|].
  cbn [lacks_key forallb fst own_prop]. intros H.
  apply andb_true_iff in H. destruct H as [Hk Hrest].
  rewrite (IH Hrest). destruct (JsString.eqb k key); [discriminate|reflexivity].
Qed.

Lemma own_prop_last_member
  (key : jsstring) (before after : list (jsstring * value)) (v : value) :
  lacks_key key after = true ->
  own_prop key (before ++ (key, v) :: after) = Some v.
Proof.
  intros H. induction before as [|[k x] before IH].
  - cbn [app own_prop]. rewrite (own_prop_absent key after H).
    unfold JsString.eqb. destruct (list_eq_dec N.eq_dec key key);
      [reflexivity | congruence].
  - cbn [app own_prop]. rewrite IH. reflexivity.
Qed.

(** C2.  When the response is a JSON object with no member [answer], or
    whose member [answer] (the last one of that name) is falsy, [askServer]
    returns the fallback string and the bot message rendered is that string;
    when that member is a non-empty string, that very string is returned (and
    rendered). *)
Theorem askServer_answer_or_fallback :
  (forall props : list (jsstring * value),
      lacks_key (js "answer") props = true ->
      askServer_on_json (Fulfilled (VObject props))
      = Done (Fulfilled (VString fallback_answer))
      /\ (forall res, askServer_run (Fulfilled res) (Fulfilled (VObject props))
                      = Done (Fulfilled (VString fallback_answer)))
      /\ forall p, messages (fst (handleSend_on_json
                                    (Fulfilled (VObject props)) p))
                   = messages p ++ [bot_message fallback_answer])
  /\ (forall (before after : list (jsstring * value)) (v : value),
      lacks_key (js "answer") after = true ->
      truthy v = false ->
      let data := VObject (before ++ (js "answer", v) :: after) in
      askServer_on_json (Fulfilled data)
      = Done (Fulfilled (VString fallback_answer))
      /\ (forall res, askServer_run (Fulfilled res) (Fulfilled data)
                      = Done (Fulfilled (VString fallback_answer)))
      /\ forall p, messages (fst (handleSend_on_json (Fulfilled data) p))
                   = messages p ++ [bot_message fallback_answer])
  /\ (forall (before after : list (jsstring * value)) (s : jsstring),
      lacks_key (js "answer") after = true ->
      s <> [] ->
      let data := VObject (before ++ (js "answer", VString s) :: after) in
      askServer_on_json (Fulfilled data) = Done (Fulfilled (VString s))
      /\ (forall res, askServer_run (Fulfilled res) (Fulfilled data)
                      = Done (Fulfilled (VString s)))
      /\ forall p, messages (fst (handleSend_on_json (Fulfilled data) p))
                   = messages p ++ [bot_message s]).
Proof.
  assert (Hall : forall data s,
             askServer_on_json (Fulfilled data) = Done (Fulfilled (VString s)) ->
             askServer_on_json (Fulfilled data) = Done (Fulfilled (VString s))
             /\ (forall res, askServer_run (Fulfilled res) (Fulfilled data)
                             = Done (Fulfilled (VString s)))
             /\ forall p, messages (fst (handleSend_on_json (Fulfilled data) p))
                          = messages p ++ [bot_message s]).
  { intros data s Hjson. split; [exact Hjson|].
    split; [intros res; exact Hjson|].
    intros p. apply (handleSend_on_json_string data s p Hjson). }
  split; [|split].
  - intros props Hnone. apply Hall.
    unfold askServer_on_json, get_answer.
    rewrite (own_prop_absent _ _ Hnone). reflexivity.
  - intros before after v Hafter Hv data. apply Hall.
    unfold data, askServer_on_json, get_answer.
    rewrite (own_prop_last_member _ before after v Hafter).
    unfold js_or. rewrite Hv. reflexivity.
  - intros before after s Hafter Hs data. apply Hall.
    unfold data, askServer_on_json, get_answer.
    rewrite (own_prop_last_member _ before after (VString s) Hafter).
    unfold js_or. destruct s; [contradiction | reflexivity].
Qed.

(** The empty object and an empty answer get the fallback; the answer
    [Hello], also among other members and after an earlier [answer], is
    returned. *)
Lemma askServer_answer_or_fallback_witness :
  askServer_on_json (Fulfilled (VObject []))
  = Done (Fulfilled (VString (js "Sorry, I couldn't understand.")))
  /\ askServer_on_json (Fulfilled (answer_object []))
     = Done (Fulfilled (VString (js "Sorry, I couldn't understand.")))
  /\ askServer_on_json (Fulfilled (answer_object (js "Hello")))
     = Done (Fulfilled (VString (js "Hello")))
  /\ askServer_on_json
       (Fulfilled (VObject [(js "answer", VString (js "Bye"));
                            (js "id", VNull);
                            (js "answer", VString (js "Hello"));
                            (js "ok", VBool true)]))
     = Done (Fulfilled (VString (js "Hello"))).
Proof.
  destruct askServer_answer_or_fallback as (Habsent & Hfalsy & Hstring).
  split; [|split; [|split]].
  - exact (proj1 (Habsent [] eq_refl)).
  - exact (proj1 (Hfalsy [] [] (VString []) eq_refl eq_refl)).
  - refine (proj1 (Hstring [] [] (js "Hello") eq_refl _)).
    vm_compute. discriminate.
  - refine (proj1 (Hstring [(js "answer", VString (js "Bye")); (js "id", VNull)]
                     [(js "ok", VBool true)] (js "Hello") eq_refl _)).
    vm_compute. discriminate.
Defined.

(** C3.  On a prompt that trims to the empty string [handleSend] returns at
    once and leaves the page as it was: no message, no request, the prompt
    untouched; so do the two listeners that call it. *)
Theorem handleSend_blank_is_noop (p : page) :
  JsString.trim (promptInput_value p) = [] ->
  handleSend p = (p, Done (Fulfilled tt))
  /\ messages (fst (handleSend p)) = messages p
  /\ requests (log (fst (handleSend p))) = requests (log p)
  /\ forall w, doc w = p ->
      doc (step SendClick w) = p
      /\ doc (step (PromptKeydown (js "Enter")) w) = p.
Proof.
  intros H. pose proof (handleSend_noop p H) as E.
  rewrite E. repeat split; try reflexivity;
    subst p; cbn; unfold call_handleSend; rewrite E; reflexivity.
Qed.

(** A prompt of a space, a tab, a no-break space and a line feed. *)
Lemma handleSend_blank_is_noop_witness :
  handleSend (page_with_prompt [32; 9; 160; 10]%N false)
  = (page_with_prompt [32; 9; 160; 10]%N false, Done (Fulfilled tt)).
Proof.
  apply (handleSend_blank_is_noop (page_with_prompt [32; 9; 160; 10]%N false)).
  vm_compute. reflexivity.
Defined.

(** What the first part of a proceeding [handleSend] does, in order. *)
Lemma handleSend_start_effects (p : page) :
  JsString.trim (promptInput_value p) <> [] ->
  let q := JsString.trim (promptInput_value p) in
  exists p1,
    handleSend p = (p1, Await AtFetch)
    /\ messages p1 = messages p ++ [user_message q]
    /\ promptInput_value p1 = []
    /\ speakChk_checked p1 = speakChk_checked p
    /\ speechSynthesis p1 = speechSynthesis p
    /\ log p1 = log p ++ [AppendChild (user_message q); ScrollToEnd;
                          SetPromptValue []; Fetch (ask_request q)].
Proof.
  intros H q. eexists. split; [exact (handleSend_proceeds p H)|].
  cbn. repeat rewrite <- app_assoc. repeat split; reflexivity.
Qed.

(** What the last part of an answered [handleSend] does, in order. *)
Lemma handleSend_answered_effects (ans : value) (text : jsstring) (p : page) :
  truthy ans = true -> ToString ans = Fulfilled text ->
  let said := {| utterance_text := text; utterance_lang := js "en-IN" |} in
  log (fst (handleSend_answered ans p))
  = log p ++ [AppendChild (bot_message text); ScrollToEnd]
      ++ (if speakChk_checked p && speechSynthesis_in_window p
          then [SynthesisCancel; SynthesisSpeak said] else []).
Proof.
  intros Ht Hs said. rewrite (handleSend_answered_rendered ans text p Ht Hs).
  destruct (speakChk_checked p && speechSynthesis_in_window p); cbn;
    repeat rewrite <- app_assoc; reflexivity.
Qed.

Lemma synthesis_calls_app (l1 l2 : list effect) :
  synthesis_calls (l1 ++ l2) = synthesis_calls l1 ++ synthesis_calls l2.
Proof. apply filter_app. Qed.

(** C4.  When [fetch] or [res.json()] rejects, the call of the service is
    rejected, nothing catches it, and the call of [handleSend] is rejected with
    the same reason; the page stays as the first part of [handleSend] left
    it: the user message is in the transcript, no bot message is added and the
    synthesis engine is not called. *)
Theorem handleSend_failure_propagates
  (p : page) (e : error) (res : response) (rj : outcome value) :
  JsString.trim (promptInput_value p) <> [] ->
  let user := user_message (JsString.trim (promptInput_value p)) in
  exists p1,
    handleSend p = (p1, Await AtFetch)
    /\ messages p1 = messages p ++ [user]
    /\ synthesis_calls (log p1) = synthesis_calls (log p)
    /\ askServer_run (Rejected e) rj = Done (Rejected e)
    /\ askServer_run (Fulfilled res) (Rejected e) = Done (Rejected e)
    /\ handleSend_run (Rejected e) rj p = (p1, Done (Rejected e))
    /\ handleSend_run (Fulfilled res) (Rejected e) p = (p1, Done (Rejected e))
    /\ forall p' : page,
        handleSend_on_fetch (Rejected e) p' = (p', Done (Rejected e))
        /\ handleSend_on_json (Rejected e) p' = (p', Done (Rejected e)).
Proof.
  intros H user.
  destruct (handleSend_start_effects p H)
    as (p1 & Hstart & Hmsg & _ & _ & _ & Hlog).
  exists p1. split; [exact Hstart|]. split; [exact Hmsg|].
  split; [rewrite Hlog, synthesis_calls_app, app_nil_r; reflexivity|].
  unfold handleSend_run. rewrite Hstart.
  repeat split; reflexivity.
Qed.

(** The network fails on the question [Hi]. *)
Lemma handleSend_failure_propagates_witness :
  snd (handleSend_run (Rejected TypeError) (Rejected TypeError)
         (page_with_prompt (js "Hi") true))
  = Done (Rejected TypeError)
  /\ messages (fst (handleSend_run (Rejected TypeError) (Rejected TypeError)
                      (page_with_prompt (js "Hi") true)))
     = [user_message (js "Hi")].
Proof.
  destruct (handleSend_failure_propagates
              (page_with_prompt (js "Hi") true) TypeError
              {| status := 200 |} (Rejected TypeError))
    as (p1 & _ & Hmsg & _ & _ & _ & Hrun & _).
  - vm_compute. discriminate.
  - rewrite Hrun. split; [reflexivity | exact Hmsg].
Defined.

(** C5.  When the answer of a send arrives (an answer with a rendition as
    text, as every string has): with the checkbox off, or with no synthesis
    engine in the window, the bot message is rendered and the engine is not
    called; with the checkbox on and an engine present, after the bot message
    is rendered the engine is called twice, [cancel()] and then [speak(u)]
    once, where [u] carries the text of the answer and the language [en-IN],
    and the queue of the engine holds [u] alone. *)
Theorem handleSend_speaks_answer
  (rj : outcome value) (ans : value) (text : jsstring) (p : page) :
  askServer_on_json rj = Done (Fulfilled ans) ->
  ToString ans = Fulfilled text ->
  let p' := fst (handleSend_on_json rj p) in
  let bot := bot_message text in
  let said := {| utterance_text := text; utterance_lang := js "en-IN" |} in
  snd (handleSend_on_json rj p) = Done (Fulfilled tt)
  /\ (speakChk_checked p = false \/ speechSynthesis p = None ->
      log p' = log p ++ [AppendChild bot; ScrollToEnd]
      /\ synthesis_calls (log p') = synthesis_calls (log p)
      /\ speechSynthesis p' = speechSynthesis p)
  /\ (forall queue,
      speakChk_checked p = true -> speechSynthesis p = Some queue ->
      log p' = log p ++ [AppendChild bot; ScrollToEnd;
                         SynthesisCancel; SynthesisSpeak said]
      /\ synthesis_calls (log p')
         = synthesis_calls (log p) ++ [SynthesisCancel; SynthesisSpeak said]
      /\ speechSynthesis p' = Some [said])
  /\ (forall s, ans = VString s -> utterance_text said = s)
  /\ (forall rf,
      JsString.trim (promptInput_value p) <> [] ->
      askServer_run rf rj = Done (Fulfilled ans) ->
      synthesis_calls (log (fst (handleSend_run rf rj p)))
      = synthesis_calls (log p)
          ++ (if speakChk_checked p && speechSynthesis_in_window p
              then [SynthesisCancel; SynthesisSpeak said] else [])).
Proof.
  intros Hjson Htext p' bot said.
  pose proof (askServer_on_json_truthy _ _ Hjson) as Htruthy.
  assert (Hresume : forall p0 : page,
             handleSend_on_json rj p0
             = (fst (handleSend_answered ans p0), Done (Fulfilled tt))).
  { intros p0. unfold handleSend_on_json. rewrite Hjson.
    cbn [handleSend_await].
    rewrite (handleSend_answered_rendered ans text p0 Htruthy Htext).
    reflexivity. }
  unfold p'. rewrite Hresume. cbn [fst snd].
  split; [reflexivity|]. split; [|split; [|split]].
  - intros Hoff.
    assert (Hc : speakChk_checked p && speechSynthesis_in_window p = false).
    { unfold speechSynthesis_in_window.
      destruct Hoff as [-> | ->]; [reflexivity | apply andb_false_r]. }
    pose proof (handleSend_answered_effects ans text p Htruthy Htext) as Hlog.
    cbv zeta in Hlog. rewrite Hc in Hlog.
    split; [rewrite Hlog, app_nil_r; reflexivity|].
    split; [rewrite Hlog, !synthesis_calls_app, !app_nil_r; reflexivity|].
    rewrite (handleSend_answered_rendered ans text p Htruthy Htext), Hc.
    reflexivity.
  - intros queue Hon Hq.
    assert (Hc : speakChk_checked p && speechSynthesis_in_window p = true).
    { unfold speechSynthesis_in_window. rewrite Hon, Hq. reflexivity. }
    pose proof (handleSend_answered_effects ans text p Htruthy Htext) as Hlog.
    cbv zeta in Hlog. rewrite Hc in Hlog.
    split; [exact Hlog|].
    split; [rewrite Hlog, synthesis_calls_app; reflexivity|].
    rewrite (handleSend_answered_rendered ans text p Htruthy Htext), Hc.
    cbn. rewrite Hq. reflexivity.
  - intros s Hs. subst ans. cbn in Htext. inversion Htext. reflexivity.
  - intros rf Hq Hask.
    destruct (askServer_run_fulfilled _ _ _ Hask) as [[res ->] _].
    destruct (handleSend_start_effects p Hq)
      as (p1 & Hstart & _ & _ & Hchk & Hsyn & Hlog).
    unfold handleSend_run. rewrite Hstart.
    unfold handleSend_on_fetch. cbn [askServer_on_fetch handleSend_await].
    rewrite Hresume. cbn [fst].
    pose proof (handleSend_answered_effects ans text p1 Htruthy Htext) as Hans.
    cbv zeta in Hans. rewrite Hans, Hlog.
    unfold speechSynthesis_in_window. rewrite Hchk, Hsyn.
    rewrite !synthesis_calls_app.
    destruct (speakChk_checked p && _);
      cbn [synthesis_calls filter is_synthesis_call app];
      rewrite !app_nil_r; reflexivity.
Qed.

(** The answer [Hello] arrives while an earlier answer is still spoken. *)
Lemma handleSend_speaks_answer_witness :
  speechSynthesis
    (fst (handleSend_on_json (Fulfilled (answer_object (js "Hello")))
            page_still_speaking))
  = Some [{| utterance_text := js "Hello"; utterance_lang := js "en-IN" |}]
  /\ synthesis_calls
       (log (fst (handleSend_on_json (Fulfilled (answer_object (js "Hello")))
                    page_still_speaking)))
     = [SynthesisCancel;
        SynthesisSpeak {| utterance_text := js "Hello";
                          utterance_lang := js "en-IN" |}].
Proof.
  destruct (proj1 (proj2 (proj2
              (handleSend_speaks_answer
                 (Fulfilled (answer_object (js "Hello")))
                 (VString (js "Hello")) (js "Hello")
                 page_still_speaking eq_refl eq_refl)))
              [{| utterance_text := js "earlier answer";
                  utterance_lang := js "en-IN" |}]
              eq_refl eq_refl) as (_ & Hcalls & Hqueue).
  split; [exact Hqueue | exact Hcalls].
Defined.

(** ** The order of the steps of a send *)

Lemma position_head (e : effect) (l : list effect) :
  position e (e :: l) = Some O.
Proof.
  cbn [position]. destruct (effect_eq_dec e e); [reflexivity | congruence].
Qed.

Lemma position_tail (e x : effect) (l : list effect) :
  e <> x -> position e (x :: l) = option_map S (position e l).
Proof.
  intros H. cbn [position].
  destruct (effect_eq_dec e x); [contradiction | reflexivity].
Qed.

Lemma user_message_is_not_bot_message (a b : jsstring) :
  user_message a <> bot_message b.
Proof. unfold user_message, bot_message. intros H. inversion H. Qed.

(** C6, as stated, fails: for the question [Hi] answered [Hello], the
    script does not clear the prompt before it renders the user message. *)
Lemma clear_before_render_counterexample :
  send_order_as_specified (js "Hi") (js "Hello")
    (log (fst (handleSend_run ok_response
                 (Fulfilled (answer_object (js "Hello")))
                 (page_with_prompt (js "Hi") false))))
  = false.
Proof. vm_compute. reflexivity. Qed.

(** C6, amended.  A send that proceeds renders the user message, then
    clears the prompt, then makes the request, and suspends there: the prompt
    is empty before any response arrives.  When the answer arrives it renders
    the bot message, and after it only calls of the synthesis engine
    follow. *)
Theorem handleSend_order
  (p : page) (rf : outcome response) (rj : outcome value)
  (ans : value) (bot_text : jsstring) :
  JsString.trim (promptInput_value p) <> [] ->
  askServer_run rf rj = Done (Fulfilled ans) ->
  ToString ans = Fulfilled bot_text ->
  let q := JsString.trim (promptInput_value p) in
  exists (p1 p2 : page) (speech : list effect),
    handleSend p = (p1, Await AtFetch)
    /\ log p1 = log p ++ [AppendChild (user_message q); ScrollToEnd;
                          SetPromptValue []; Fetch (ask_request q)]
    /\ promptInput_value p1 = []
    /\ handleSend_run rf rj p = (p2, Done (Fulfilled tt))
    /\ log p2 = log p1 ++ [AppendChild (bot_message bot_text); ScrollToEnd]
                      ++ speech
    /\ forallb is_synthesis_call speech = true
    /\ send_order_render_first q bot_text
         ([AppendChild (user_message q); ScrollToEnd;
           SetPromptValue []; Fetch (ask_request q)]
          ++ [AppendChild (bot_message bot_text); ScrollToEnd] ++ speech)
       = true.
Proof.
  intros Hq Hask Htext q.
  destruct (askServer_run_fulfilled _ _ _ Hask) as [[res ->] [data [-> Hjson]]].
  pose proof (askServer_on_json_truthy _ _ Hjson) as Htruthy.
  destruct (handleSend_start_effects p Hq)
    as (p1 & Hstart & _ & Hval & _ & _ & Hlog).
  exists p1, (fst (handleSend_answered ans p1)).
  exists (if speakChk_checked p1 && speechSynthesis_in_window p1
          then [SynthesisCancel;
                SynthesisSpeak {| utterance_text := bot_text;
                                  utterance_lang := js "en-IN" |}]
          else []).
  split; [exact Hstart|]. split; [exact Hlog|]. split; [exact Hval|].
  split.
  { unfold handleSend_run. rewrite Hstart.
    unfold handleSend_on_fetch, handleSend_on_json.
    cbn [askServer_on_fetch handleSend_await]. rewrite Hjson.
    cbn [handleSend_await].
    rewrite (handleSend_answered_rendered ans bot_text p1 Htruthy Htext).
    reflexivity. }
  split; [apply (handleSend_answered_effects ans bot_text p1 Htruthy Htext)|].
  split; [destruct (_ && _); reflexivity|].
  unfold send_order_render_first, happens_before. cbn [app].
  assert (Hne1 : SetPromptValue [] <> AppendChild (user_message q))
    by discriminate.
  assert (Hne2 : SetPromptValue [] <> ScrollToEnd) by discriminate.
  assert (Hne3 : Fetch (ask_request q) <> AppendChild (user_message q))
    by discriminate.
  assert (Hne4 : Fetch (ask_request q) <> ScrollToEnd) by discriminate.
  assert (Hne5 : Fetch (ask_request q) <> SetPromptValue []) by discriminate.
  assert (Hne6 : AppendChild (bot_message bot_text)
                 <> AppendChild (user_message q)).
  { intros H. apply (user_message_is_not_bot_message q bot_text).
    congruence. }
  assert (Hne7 : AppendChild (bot_message bot_text) <> ScrollToEnd)
    by discriminate.
  assert (Hne8 : AppendChild (bot_message bot_text) <> SetPromptValue [])
    by discriminate.
  assert (Hne9 : AppendChild (bot_message bot_text) <> Fetch (ask_request q))
    by discriminate.
  repeat first [rewrite position_head
               | rewrite position_tail by assumption].
  reflexivity.
Qed.

(** The order of the mocked exchange: question [Hi], answer [Hello]. *)
Lemma handleSend_order_witness :
  log (fst (handleSend (page_with_prompt (js "Hi") false)))
  = [AppendChild (user_message (js "Hi")); ScrollToEnd;
     SetPromptValue []; Fetch (ask_request (js "Hi"))]
  /\ promptInput_value (fst (handleSend (page_with_prompt (js "Hi") false)))
     = [].
Proof.
  destruct (handleSend_order (page_with_prompt (js "Hi") false) ok_response
              (Fulfilled (answer_object (js "Hello"))) (VString (js "Hello"))
              (js "Hello"))
    as (p1 & p2 & speech & Hstart & Hlog & Hval & _).
  - vm_compute. discriminate.
  - vm_compute. reflexivity.
  - reflexivity.
  - rewrite Hstart. split; [exact Hlog | exact Hval].
Defined.

(** ** What a call of [handleSend] touches *)

Lemma requests_app (l1 l2 : list effect) :
  requests (l1 ++ l2) = requests l1 ++ requests l2.
Proof.
  induction l1 as [|e l1 IH]; [reflexivity|].
  destruct e; cbn [app requests]; rewrite IH; reflexivity.
Qed.

Lemma recognition_calls_app (l1 l2 : list effect) :
  recognition_calls (l1 ++ l2) = recognition_calls l1 ++ recognition_calls l2.
Proof. apply filter_app. Qed.

(** The question a proceeding send puts in its request. *)
Lemma ask_request_well_formed (s : jsstring) :
  JsString.trim s <> [] -> well_formed_question (ask_request (JsString.trim s)).
Proof.
  intros H. exists (JsString.trim s). split; [|split].
  - apply read_question_stringify.
  - exact H.
  - apply trim_idempotent.
Qed.

Lemma modest_refl (p : page) : modest p p.
Proof.
  split; [reflexivity|]. exists []. rewrite app_nil_r.
  repeat split. constructor.
Qed.

Lemma append_and_scroll_modest (d : div) (p : page) :
  modest p (append_and_scroll d p).
Proof.
  split; [reflexivity|]. exists [AppendChild d; ScrollToEnd]. split.
  - cbn. rewrite <- app_assoc. reflexivity.
  - split; [reflexivity | constructor].
Qed.

Lemma handleSend_answered_modest (ans : value) (p : page) :
  modest p (fst (handleSend_answered ans p)).
Proof.
  unfold handleSend_answered, addMsg. cbn [ToString and_then].
  destruct (to_text_content ans) as [text|e]; cbn [and_then fst];
    [|apply modest_refl].
  change (speakChk_checked (append_and_scroll _ p)) with (speakChk_checked p).
  change (speechSynthesis_in_window (append_and_scroll _ p))
    with (speechSynthesis_in_window p).
  destruct (speakChk_checked p && speechSynthesis_in_window p);
    [|apply append_and_scroll_modest].
  destruct (ToString ans) as [said|e]; cbn [fst];
    [|apply append_and_scroll_modest].
  split; [reflexivity|]. eexists. split.
  - cbn. repeat rewrite <- app_assoc. reflexivity.
  - split; [reflexivity | constructor].
Qed.

Lemma handleSend_await_modest (ask : async value) (p : page) :
  modest p (fst (handleSend_await ask p)).
Proof.
  destruct ask as [pt | [ans | e]]; cbn [handleSend_await fst];
    try apply modest_refl.
  pose proof (handleSend_answered_modest ans p) as H.
  destruct (handleSend_answered ans p) as [p' r]. exact H.
Qed.

Lemma handleSend_modest (p : page) : modest p (fst (handleSend p)).
Proof.
  destruct (list_eq_dec N.eq_dec (JsString.trim (promptInput_value p)) [])
    as [E | NE].
  - rewrite (handleSend_noop p E). apply modest_refl.
  - destruct (handleSend_start_effects p NE)
      as (p1 & Hstart & _ & _ & _ & _ & Hlog).
    split.
    + rewrite (handleSend_proceeds p NE). reflexivity.
    + rewrite Hstart. eexists. split; [exact Hlog|].
      split; [reflexivity|]. cbn [requests].
      constructor; [|constructor]. apply ask_request_well_formed, NE.
Qed.

(** ** The listeners *)

Lemma eqb_refl (c : jsstring) : JsString.eqb c c = true.
Proof.
  unfold JsString.eqb. destruct (list_eq_dec N.eq_dec c c); congruence.
Qed.

Lemma contains_after_remove (c : jsstring) (l : list jsstring) :
  contains c (filter (fun t => negb (JsString.eqb c t)) l) = false.
Proof.
  unfold contains. induction l as [|x l IH]; [reflexivity|].
  cbn [filter]. destruct (JsString.eqb c x) eqn:E; cbn [negb]; [exact IH|].
  cbn [existsb]. rewrite E, IH. reflexivity.
Qed.

Lemma contains_after_add (c : jsstring) (l : list jsstring) :
  contains c (if contains c l then l else l ++ [c]) = true.
Proof.
  destruct (contains c l) eqn:E; [exact E|].
  unfold contains. rewrite existsb_app. cbn [existsb].
  rewrite eqb_refl. rewrite orb_true_l. apply orb_true_r.
Qed.

(** Every step keeps the module variable [recognition], adds to the log
    only requests with a well formed question and, when there is no
    recognition object, no call of the recognition engine. *)
Lemma step_modest (ev : event) (w : world) :
  recognition (step ev w) = recognition w
  /\ exists added,
      log (doc (step ev w)) = log (doc w) ++ added
      /\ Forall well_formed_question (requests added)
      /\ (recognition w = None -> recognition_calls added = []).
Proof.
  assert (Hcall : forall w0,
             recognition (call_handleSend w0) = recognition w0
             /\ exists added,
                 log (doc (call_handleSend w0)) = log (doc w0) ++ added
                 /\ Forall well_formed_question (requests added)
                 /\ recognition_calls added = []).
  { intros w0. unfold call_handleSend.
    pose proof (handleSend_modest (doc w0)) as [_ (added & Hl & Hr & Hq)].
    destruct (handleSend (doc w0)) as [p' st]. cbn [fst] in *.
    split; [reflexivity|]. exists added. auto. }
  assert (Hnone : recognition w = recognition w
                  /\ exists added,
                      log (doc w) = log (doc w) ++ added
                      /\ Forall well_formed_question (requests added)
                      /\ (recognition w = None -> recognition_calls added = [])).
  { split; [reflexivity|]. exists []. rewrite app_nil_r.
    repeat split. constructor. }
  destruct ev as [ |key|v|b| | |results| | |i r|i r| ]; cbn [step].
  - destruct (Hcall w) as [Hr (added & Hl & Hq & Hc)].
    split; [exact Hr|]. exists added. auto.
  - destruct (JsString.eqb key (js "Enter")); [|exact Hnone].
    destruct (Hcall w) as [Hr (added & Hl & Hq & Hc)].
    split; [exact Hr|]. exists added. auto.
  - exact Hnone.
  - exact Hnone.
  - destruct (recognition w) eqn:E;
      [|split; [exact E | exact (proj2 Hnone)]].
    split; [exact E|]. eexists. split.
    + cbn. rewrite <- app_assoc. reflexivity.
    + split; [constructor | discriminate].
  - destruct (recognition w) eqn:E;
      [|split; [exact E | exact (proj2 Hnone)]].
    split; [exact E|]. eexists. split; [reflexivity|].
    split; [constructor | discriminate].
  - destruct (recognition w) eqn:E;
      [|split; [exact E | exact (proj2 Hnone)]].
    unfold recognition_onresult.
    destruct (first_transcript results) as [text|e];
      [|split; [exact E|]; exists []; rewrite app_nil_r;
        split; [reflexivity | split; [constructor | discriminate]]].
    destruct (Hcall (with_doc (set_promptInput_value text (doc w)) w))
      as [Hr (added & Hl & Hq & Hc)].
    split; [rewrite Hr; exact E|].
    exists (SetPromptValue text :: added). split.
    + rewrite Hl. cbn. rewrite <- app_assoc. reflexivity.
    + split; [exact Hq | discriminate].
  - destruct (recognition w) eqn:E;
      [|split; [exact E | exact (proj2 Hnone)]].
    split; [exact E|]. eexists. split; [reflexivity|].
    split; [constructor | discriminate].
  - destruct (recognition w) eqn:E;
      [|split; [exact E | exact (proj2 Hnone)]].
    split; [exact E|]. eexists. split; [reflexivity|].
    split; [constructor | discriminate].
  - destruct (nth_error (sends w) i) as [[[ | ] | ] | ]; try exact Hnone.
    unfold handleSend_on_fetch.
    pose proof (handleSend_await_modest (askServer_on_fetch r) (doc w))
      as [_ (added & Hl & Hr & Hq)].
    destruct (handleSend_await (askServer_on_fetch r) (doc w)) as [p' st].
    cbn [fst] in *. split; [reflexivity|]. exists added. auto.
  - destruct (nth_error (sends w) i) as [[[ | ] | ] | ]; try exact Hnone.
    unfold handleSend_on_json.
    pose proof (handleSend_await_modest (askServer_on_json r) (doc w))
      as [_ (added & Hl & Hr & Hq)].
    destruct (handleSend_await (askServer_on_json r) (doc w)) as [p' st].
    cbn [fst] in *. split; [reflexivity|]. exists added. auto.
  - exact Hnone.
Qed.

Lemma run_snoc (evs : list event) (ev : event) (w : world) :
  run (evs ++ [ev]) w = step ev (run evs w).
Proof. unfold run. rewrite fold_left_app. reflexivity. Qed.

Lemma event_is_mousedown (ev : event) :
  {ev = MicMousedown} + {ev <> MicMousedown}.
Proof. destruct ev; first [left; reflexivity | right; discriminate]. Qed.

(** Only a press of the microphone button can set the recording indicator. *)
Lemma step_keeps_idle (ev : event) (w : world) :
  ev <> MicMousedown -> recording w = false -> recording (step ev w) = false.
Proof.
  intros Hev Hidle.
  assert (Hcall : forall w0, recording w0 = false ->
                             recording (call_handleSend w0) = false).
  { intros w0 H0. unfold recording, call_handleSend in *.
    pose proof (handleSend_modest (doc w0)) as [Hc _].
    destruct (handleSend (doc w0)) as [p' st]. cbn [fst doc] in *.
    rewrite Hc. exact H0. }
  assert (Hawait : forall ask i,
             recording
               (let (p, st) := handleSend_await ask (doc w) in
                {| doc := p; recognition := recognition w;
                   sends := update_nth i st (sends w) |}) = false).
  { intros ask i. unfold recording in *.
    pose proof (handleSend_await_modest ask (doc w)) as [Hc _].
    destruct (handleSend_await ask (doc w)) as [p' st]. cbn [fst doc] in *.
    rewrite Hc. exact Hidle. }
  destruct ev as [ |key|v|b| | |results| | |i r|i r| ]; cbn [step];
    try exact Hidle.
  - apply Hcall, Hidle.
  - destruct (JsString.eqb key (js "Enter")); [apply Hcall|]; exact Hidle.
  - contradiction.
  - destruct (recognition w); exact Hidle.
  - destruct (recognition w); [|exact Hidle].
    unfold recognition_onresult.
    destruct (first_transcript results); [apply Hcall|]; exact Hidle.
  - destruct (recognition w); [|exact Hidle].
    apply contains_after_remove.
  - destruct (recognition w); [|exact Hidle].
    apply contains_after_remove.
  - destruct (nth_error (sends w) i) as [[[ | ] | ] | ]; try exact Hidle.
    apply Hawait.
  - destruct (nth_error (sends w) i) as [[[ | ] | ] | ]; try exact Hidle.
    apply Hawait.
Qed.

Lemma all_white_iff_no_visible_text (s : jsstring) :
  forallb JsString.is_white_space s = true <-> has_visible_text s = false.
Proof.
  unfold has_visible_text. induction s as [|c s IH]; cbn; [tauto|].
  destruct (JsString.is_white_space c); cbn; [exact IH|].
  split; discriminate.
Qed.

(** ** Assigning to the prompt *)

(** A string without a line break is held as assigned. *)
Lemma assigned_value_without_line_break (k : text_control) (v : jsstring) :
  forallb (fun c => negb (is_line_break c)) v = true ->
  assigned_value k v = v.
Proof.
  induction v as [|c v IH]; [reflexivity|].
  cbn [forallb]. intros H. apply andb_true_iff in H. destruct H as [Hc Hv].
  apply negb_true_iff in Hc. unfold is_line_break in Hc.
  cbn [assigned_value]. destruct k.
  - rewrite Hc, (IH Hv). reflexivity.
  - apply orb_false_iff in Hc. destruct Hc as [_ Hcr]. rewrite Hcr, (IH Hv).
    reflexivity.
Qed.

(** What a control drops or rewrites is white space: the string held has
    visible text exactly when the string assigned has. *)
Lemma assigned_value_visible_text (k : text_control) (v : jsstring) :
  has_visible_text (assigned_value k v) = has_visible_text v.
Proof.
  unfold has_visible_text. induction v as [|c v IH]; [reflexivity|].
  cbn [assigned_value]. destruct k.
  - destruct ((c =? 10) || (c =? 13))%N eqn:E.
    + assert (Hw : JsString.is_white_space c = true).
      { unfold JsString.is_white_space. lia. }
      cbn [existsb]. rewrite Hw, IH. reflexivity.
    + cbn [existsb]. rewrite IH. reflexivity.
  - destruct (c =? 13)%N eqn:E.
    + assert (Hw : JsString.is_white_space c = true).
      { unfold JsString.is_white_space. lia. }
      cbn [existsb]. rewrite Hw. cbn [negb orb].
      destruct v as [|d v']; [reflexivity|].
      destruct (d =? 10)%N; [exact IH|].
      change (existsb ?f (10%N :: ?l)) with (f 10%N || existsb f l).
      rewrite IH. reflexivity.
    + cbn [existsb]. rewrite IH. reflexivity.
Qed.

Lemma trim_of_visible_text (s : jsstring) :
  has_visible_text s = true -> JsString.trim s <> [].
Proof.
  intros Hv E. apply trim_nil_iff, all_white_iff_no_visible_text in E.
  congruence.
Qed.

(** C7.  On a recognition result with a first alternative, the listener
    assigns the recognised text to the prompt, which then holds what the
    control keeps of it (all of it when it has no line break), and calls
    [handleSend]: what follows is what a click on send does after the user
    typed that into the prompt, the assignment being the one effect more; a
    text that is not all white space is rendered as a user message and
    sent. *)
Theorem recognition_result_is_sent
  (w : world) (r : recognizer) (results : list (list alternative))
  (text : jsstring) :
  recognition w = Some r ->
  first_transcript results = Fulfilled text ->
  let held := assigned_value (promptInput_kind (doc w)) text in
  let heard := step (RecognitionResult results) w in
  let typed := step SendClick (step (UserEdits held) w) in
  heard = call_handleSend (with_doc (set_promptInput_value text (doc w)) w)
  /\ promptInput_value (set_promptInput_value text (doc w)) = held
  /\ (forallb (fun c => negb (is_line_break c)) text = true -> held = text)
  /\ (exists sent,
        log (doc heard) = log (doc w) ++ SetPromptValue text :: sent
        /\ log (doc typed) = log (doc w) ++ sent)
  /\ messages (doc heard) = messages (doc typed)
  /\ promptInput_value (doc heard) = promptInput_value (doc typed)
  /\ sends heard = sends typed
  /\ (has_visible_text text = true ->
      JsString.trim held <> []
      /\ messages (doc heard)
         = messages (doc w) ++ [user_message (JsString.trim held)]
      /\ requests (log (doc heard))
         = requests (log (doc w)) ++ [ask_request (JsString.trim held)]
      /\ sends heard = sends w ++ [Await AtFetch]).
Proof.
  intros Hrec Hfirst held heard typed.
  assert (Hheard : heard = call_handleSend
                             (with_doc (set_promptInput_value text (doc w)) w)).
  { unfold heard. cbn [step]. rewrite Hrec.
    unfold recognition_onresult. rewrite Hfirst. reflexivity. }
  split; [exact Hheard|]. split; [reflexivity|].
  split; [apply assigned_value_without_line_break|].
  unfold typed. cbn [step]. rewrite Hheard. unfold call_handleSend.
  cbn [doc with_doc].
  assert (Hnv : JsString.trim held = [] -> has_visible_text text = true -> False).
  { intros E Hv. apply (trim_of_visible_text held); [|exact E].
    unfold held. rewrite assigned_value_visible_text. exact Hv. }
  destruct (list_eq_dec N.eq_dec (JsString.trim held) []) as [E | NE].
  - rewrite (handleSend_noop (set_promptInput_value text (doc w)) E).
    rewrite (handleSend_noop (store_prompt held (doc w)) E).
    cbn. split; [exists []; rewrite app_nil_r; auto|].
    split; [reflexivity|]. split; [reflexivity|]. split; [reflexivity|].
    intros Hv. destruct (Hnv E Hv).
  - rewrite (handleSend_proceeds (set_promptInput_value text (doc w)) NE).
    rewrite (handleSend_proceeds (store_prompt held (doc w)) NE).
    cbn. split.
    + eexists. split.
      * repeat rewrite <- app_assoc. cbn [app]. reflexivity.
      * repeat rewrite <- app_assoc. reflexivity.
    + split; [reflexivity|]. split; [reflexivity|]. split; [reflexivity|].
      intros _. split; [exact NE|]. split; [reflexivity|].
      split; [|reflexivity].
      rewrite !requests_app. cbn. rewrite !app_nil_r. reflexivity.
Qed.

(** The recognised text is [a], a line feed, [b]: a single-line prompt keeps
    [ab], a multi-line one all of it, and that is what is sent. *)
Lemma recognition_result_is_sent_witness :
  requests
    (log (doc (step (RecognitionResult [[{| transcript := [97; 10; 98]%N |}]])
                 (startup window_with_recognition
                    (page_with_prompt [] false)))))
  = [ask_request (js "ab")]
  /\ messages
       (doc (step (RecognitionResult [[{| transcript := [97; 10; 98]%N |}]])
               (startup window_with_recognition
                  (page_with_prompt [] false))))
     = [user_message (js "ab")]
  /\ messages
       (doc (step (RecognitionResult [[{| transcript := [97; 10; 98]%N |}]])
               (startup window_with_recognition
                  (with_multi_line_prompt (page_with_prompt [] false)))))
     = [user_message [97; 10; 98]%N].
Proof.
  destruct (recognition_result_is_sent
              (startup window_with_recognition (page_with_prompt [] false))
              {| lang := js "en-IN"; interimResults := false;
                 maxAlternatives := 1; webkit_prefixed := false |}
              [[{| transcript := [97; 10; 98]%N |}]] [97; 10; 98]%N
              eq_refl eq_refl)
    as (_ & _ & _ & _ & _ & _ & _ & Hsingle).
  destruct (Hsingle eq_refl) as (_ & Hmsg & Hreq & _).
  destruct (recognition_result_is_sent
              (startup window_with_recognition
                 (with_multi_line_prompt (page_with_prompt [] false)))
              {| lang := js "en-IN"; interimResults := false;
                 maxAlternatives := 1; webkit_prefixed := false |}
              [[{| transcript := [97; 10; 98]%N |}]] [97; 10; 98]%N
              eq_refl eq_refl)
    as (_ & _ & _ & _ & _ & _ & _ & Hmulti).
  destruct (Hmulti eq_refl) as (_ & Hmsg' & _).
  split; [exact Hreq|]. split; [exact Hmsg | exact Hmsg'].
Defined.

(** ** Voice capture *)

Lemma startup_without_recognition (e : window_speech_input) (p : page) :
  SpeechRecognition_in_window e = false ->
  webkitSpeechRecognition_in_window e = false ->
  startup e p
  = {| doc := set_micBtn_title (js "Voice input not supported in this browser")
                (set_micBtn_disabled true p);
       recognition := None;
       sends := [] |}.
Proof. unfold startup. intros -> ->. reflexivity. Qed.

Lemma run_without_recognition (evs : list event) (w : world) :
  recognition w = None ->
  recognition (run evs w) = None
  /\ recognition_calls (log (doc (run evs w)))
     = recognition_calls (log (doc w)).
Proof.
  intros Hw. induction evs as [|ev evs [IHr IHl]] using rev_ind.
  - split; [exact Hw | reflexivity].
  - rewrite run_snoc.
    destruct (step_modest ev (run evs w)) as [Hr (added & Hl & _ & Hc)].
    split; [rewrite Hr; exact IHr|].
    rewrite Hl, recognition_calls_app, (Hc IHr), app_nil_r. exact IHl.
Qed.

(** C8.  In a window with neither recognition constructor, the script
    disables the microphone button and titles it with the explanation, and
    keeps no recognition object; from then on, whatever events occur, no call
    of a recognition engine is ever made, and pressing or releasing the
    microphone button leaves the whole state as it is. *)
Theorem unsupported_recognition_is_inert
  (e : window_speech_input) (p : page) :
  SpeechRecognition_in_window e = false ->
  webkitSpeechRecognition_in_window e = false ->
  micBtn_disabled (doc (startup e p)) = true
  /\ micBtn_title (doc (startup e p))
     = js "Voice input not supported in this browser"
  /\ recognition (startup e p) = None
  /\ forall evs : list event,
      let w := run evs (startup e p) in
      recognition w = None
      /\ recognition_calls (log (doc w)) = recognition_calls (log p)
      /\ step MicMousedown w = w
      /\ step MicMouseup w = w.
Proof.
  intros Hs Hw. rewrite (startup_without_recognition e p Hs Hw).
  split; [reflexivity|]. split; [reflexivity|]. split; [reflexivity|].
  intros evs w.
  destruct (run_without_recognition evs
              {| doc := set_micBtn_title
                          (js "Voice input not supported in this browser")
                          (set_micBtn_disabled true p);
                 recognition := None; sends := [] |} eq_refl) as [Hr Hl].
  fold w in Hr, Hl. split; [exact Hr|]. split.
  - rewrite Hl. cbn [doc set_micBtn_title set_micBtn_disabled emit log].
    rewrite !recognition_calls_app. cbn. rewrite !app_nil_r. reflexivity.
  - cbn [step]. rewrite Hr. split; reflexivity.
Qed.

(** Presses, releases and a click on send in a window without recognition. *)
Lemma unsupported_recognition_is_inert_witness :
  recognition_calls
    (log (doc (run [MicMousedown; MicMouseup; SendClick; MicMousedown]
                 (startup window_without_recognition
                    (page_with_prompt (js "Hi") false)))))
  = []
  /\ micBtn_disabled
       (doc (startup window_without_recognition
               (page_with_prompt (js "Hi") false)))
     = true.
Proof.
  destruct (unsupported_recognition_is_inert window_without_recognition
              (page_with_prompt (js "Hi") false) eq_refl eq_refl)
    as (Hdis & _ & _ & Hrun).
  destruct (Hrun [MicMousedown; MicMouseup; SendClick; MicMousedown])
    as (_ & Hcalls & _).
  split; [exact Hcalls | exact Hdis].
Defined.

(** C9.  With a recognition object in place: a recognition error and the end
    of recognition each clear the recording indicator and do nothing else to
    the page but log that (no message is rendered); a press of the microphone
    button sets the indicator; and no other event takes the indicator from
    clear to set. *)
Theorem recording_indicator_transitions (w : world) (r : recognizer) :
  recognition w = Some r ->
  (recording (step RecognitionErrorEvent w) = false
   /\ messages (doc (step RecognitionErrorEvent w)) = messages (doc w)
   /\ log (doc (step RecognitionErrorEvent w))
      = log (doc w) ++ [MicClassRemove (js "rec")])
  /\ (recording (step RecognitionEnd w) = false
      /\ messages (doc (step RecognitionEnd w)) = messages (doc w)
      /\ log (doc (step RecognitionEnd w))
         = log (doc w) ++ [MicClassRemove (js "rec")])
  /\ recording (step MicMousedown w) = true
  /\ forall ev : event,
      recording w = false -> recording (step ev w) = true ->
      ev = MicMousedown.
Proof.
  intros Hrec. cbn [step]. rewrite Hrec.
  split; [|split; [|split]].
  - split; [apply contains_after_remove | split; reflexivity].
  - split; [apply contains_after_remove | split; reflexivity].
  - apply contains_after_add.
  - intros ev Hidle Hset.
    destruct (event_is_mousedown ev) as [-> | Hev]; [reflexivity|].
    rewrite (step_keeps_idle ev w Hev Hidle) in Hset. discriminate.
Qed.

(** Press and hold, then a recognition error. *)
Lemma recording_indicator_transitions_witness :
  recording
    (step MicMousedown
       (startup window_with_recognition (page_with_prompt [] false)))
  = true
  /\ recording
       (step RecognitionErrorEvent
          (step MicMousedown
             (startup window_with_recognition (page_with_prompt [] false))))
     = false.
Proof.
  split.
  - exact (proj1 (proj2 (proj2
             (recording_indicator_transitions
                (startup window_with_recognition (page_with_prompt [] false))
                {| lang := js "en-IN"; interimResults := false;
                   maxAlternatives := 1; webkit_prefixed := false |}
                eq_refl)))).
  - exact (proj1 (proj1
             (recording_indicator_transitions
                (step MicMousedown
                   (startup window_with_recognition
                      (page_with_prompt [] false)))
                {| lang := js "en-IN"; interimResults := false;
                   maxAlternatives := 1; webkit_prefixed := false |}
                eq_refl))).
Defined.

(** ** The question that reaches the server *)

Lemma run_requests_well_formed (evs : list event) (w : world) :
  Forall well_formed_question (requests (log (doc w))) ->
  Forall well_formed_question (requests (log (doc (run evs w)))).
Proof.
  intros Hw. induction evs as [|ev evs IH] using rev_ind; [exact Hw|].
  rewrite run_snoc.
  destruct (step_modest ev (run evs w)) as [_ (added & Hl & Hq & _)].
  rewrite Hl, requests_app. apply Forall_app. split; assumption.
Qed.

(** C10.  A send that proceeds renders as the user message, and puts as
    the question in the body of its one request, the trimmed content of the
    prompt as it was when [handleSend] was called; that question is not empty
    and has nothing left to trim.  Whatever events occur, every request the
    script makes carries such a question. *)
Theorem question_sent_is_trimmed_prompt (p : page) :
  JsString.trim (promptInput_value p) <> [] ->
  let q := JsString.trim (promptInput_value p) in
  (exists p1 sent,
      handleSend p = (p1, Await AtFetch)
      /\ messages p1 = messages p ++ [user_message q]
      /\ requests (log p1) = requests (log p) ++ [sent]
      /\ url sent = js "/ask" /\ method sent = js "POST"
      /\ Json.read_question (body sent) = Some q
      /\ textContent (user_message q) = q
      /\ q <> []
      /\ JsString.trim q = q)
  /\ forall (evs : list event) (w : world),
      Forall well_formed_question (requests (log (doc w))) ->
      Forall well_formed_question (requests (log (doc (run evs w)))).
Proof.
  intros H q. split; [|exact run_requests_well_formed].
  destruct (handleSend_start_effects p H)
    as (p1 & Hstart & Hmsg & _ & _ & _ & Hlog).
  exists p1, (ask_request q).
  split; [exact Hstart|]. split; [exact Hmsg|].
  split; [rewrite Hlog, requests_app; reflexivity|].
  split; [reflexivity|]. split; [reflexivity|].
  split; [apply read_question_stringify|].
  split; [reflexivity|]. split; [exact H|].
  apply trim_idempotent.
Qed.

(** The prompt holds [Hi] between spaces and is followed by a line feed. *)
Lemma question_sent_is_trimmed_prompt_witness :
  option_map (fun r => Json.read_question (body r))
    (hd_error
       (requests
          (log (fst (handleSend
                       (page_with_prompt
                          ([32; 32] ++ js "Hi" ++ [32; 10])%N false))))))
  = Some (Some (js "Hi"))
  /\ messages
       (fst (handleSend
               (page_with_prompt ([32; 32] ++ js "Hi" ++ [32; 10])%N false)))
     = [user_message (js "Hi")].
Proof.
  assert (Hq : JsString.trim
                 (promptInput_value
                    (page_with_prompt ([32; 32] ++ js "Hi" ++ [32; 10])%N
                       false)) <> []).
  { vm_compute. discriminate. }
  destruct (proj1 (question_sent_is_trimmed_prompt
                     (page_with_prompt ([32; 32] ++ js "Hi" ++ [32; 10])%N
                        false) Hq))
    as (p1 & sent & Hstart & Hmsg & Hreq & _ & _ & Hread & _).
  rewrite Hstart. cbn [fst]. rewrite Hreq. split; [|exact Hmsg].
  cbn. rewrite Hread. reflexivity.
Defined.


(** * Further properties of the script *)

(** ** Rendering a message *)

(** X1.  [addMsg] with a text that has a rendition appends exactly one
    element, of class [msg] followed by the author, holding that rendition,
    and then scrolls; nothing else on the page changes.  A [null] or
    [undefined] text has the empty rendition, and an omitted author is
    [user]. *)
Theorem addMsg_appends_one
  (text : value) (who rendition : jsstring) (p : page) :
  to_text_content text = Fulfilled rendition ->
  let d := {| className := js "msg " ++ who; textContent := rendition |} in
  (exists p',
      addMsg text (VString who) p = Fulfilled p'
      /\ messages p' = messages p ++ [d]
      /\ log p' = log p ++ [AppendChild d; ScrollToEnd]
      /\ promptInput_value p' = promptInput_value p
      /\ speakChk_checked p' = speakChk_checked p
      /\ micBtn_classList p' = micBtn_classList p
      /\ micBtn_disabled p' = micBtn_disabled p
      /\ micBtn_title p' = micBtn_title p
      /\ speechSynthesis p' = speechSynthesis p)
  /\ addMsg text VUndefined p = addMsg text (VString (js "user")) p
  /\ (forall q, addMsg VNull (VString who) q = addMsg (VString []) (VString who) q)
  /\ (forall q, addMsg VUndefined (VString who) q
                = addMsg (VString []) (VString who) q).
Proof.
  intros H d. split; [|repeat split].
  eexists. split.
  - unfold addMsg. cbn [ToString and_then]. rewrite H. reflexivity.
  - cbn. rewrite <- app_assoc. repeat split; reflexivity.
Qed.

(** [addMsg(null, "bot")] renders an empty bot message. *)
Lemma addMsg_appends_one_witness :
  option_map messages
    (match addMsg VNull (VString (js "bot")) (page_with_prompt [] false) with
     | Fulfilled p' => Some p'
     | Rejected _ => None
     end)
  = Some [bot_message []].
Proof.
  destruct (proj1 (addMsg_appends_one VNull (js "bot") []
                     (page_with_prompt [] false) eq_refl))
    as (p' & Hadd & Hmsg & _).
  rewrite Hadd. cbn [option_map]. rewrite Hmsg. reflexivity.
Defined.

(** ** When a send proceeds *)

(** X2.  [handleSend] goes on to the request exactly when the prompt holds a
    code unit that is not white space, and returns at once exactly when it
    holds none. *)
Theorem handleSend_proceeds_iff_visible_text (p : page) :
  (snd (handleSend p) = Await AtFetch
   <-> has_visible_text (promptInput_value p) = true)
  /\ (snd (handleSend p) = Done (Fulfilled tt)
      <-> has_visible_text (promptInput_value p) = false).
Proof.
  destruct (list_eq_dec N.eq_dec (JsString.trim (promptInput_value p)) [])
    as [E | NE].
  - rewrite (handleSend_noop p E). cbn [snd].
    apply trim_nil_iff, all_white_iff_no_visible_text in E. rewrite E.
    split; split; first [discriminate | reflexivity].
  - rewrite (handleSend_proceeds p NE). cbn [snd].
    destruct (has_visible_text (promptInput_value p)) eqn:Hv.
    + split; split; first [discriminate | reflexivity].
    + apply all_white_iff_no_visible_text, trim_nil_iff in Hv. contradiction.
Qed.

(** ** The request *)

(** X3.  Different questions give requests with different bodies: the body
    determines the question. *)
Theorem ask_request_body_distinct (q1 q2 : jsstring) :
  q1 <> q2 -> body (ask_request q1) <> body (ask_request q2).
Proof.
  intros Hne Heq. apply Hne.
  pose proof (read_question_stringify q1) as H1.
  pose proof (read_question_stringify q2) as H2.
  cbn [body ask_request] in Heq. rewrite Heq, H2 in H1.
  inversion H1. reflexivity.
Qed.

(** A question and the same question with a quotation mark after it. *)
Lemma ask_request_body_distinct_witness :
  body (ask_request (js "Hi")) <> body (ask_request (js "Hi" ++ [34%N])).
Proof.
  apply ask_request_body_distinct. vm_compute. discriminate.
Defined.

(** ** The keyboard *)

Lemma eqb_true_iff (a b : jsstring) : JsString.eqb a b = true <-> a = b.
Proof.
  unfold JsString.eqb. destruct (list_eq_dec N.eq_dec a b); split;
    first [congruence | discriminate | reflexivity].
Qed.

(** X4.  A keydown in the prompt whose key is not [Enter] changes nothing;
    one whose key is [Enter] does what a click on send does. *)
Theorem keydown_sends_on_Enter_only (key : jsstring) (w : world) :
  (key <> js "Enter" -> step (PromptKeydown key) w = w)
  /\ (key = js "Enter" -> step (PromptKeydown key) w = step SendClick w).
Proof.
  cbn [step]. split.
  - intros H. destruct (JsString.eqb key (js "Enter")) eqn:E; [|reflexivity].
    apply eqb_true_iff in E. contradiction.
  - intros ->. rewrite eqb_refl. reflexivity.
Qed.

(** The lower-case key [enter] on a prompt holding [Hi]. *)
Lemma keydown_sends_on_Enter_only_witness :
  step (PromptKeydown (js "enter"))
    (startup window_with_recognition (page_with_prompt (js "Hi") false))
  = startup window_with_recognition (page_with_prompt (js "Hi") false).
Proof.
  apply (proj1 (keydown_sends_on_Enter_only (js "enter")
                  (startup window_with_recognition
                     (page_with_prompt (js "Hi") false)))).
  vm_compute. discriminate.
Defined.

(** ** What every reaction of the script keeps *)

Lemma user_texts_app (l1 l2 : list div) :
  user_texts (l1 ++ l2) = user_texts l1 ++ user_texts l2.
Proof.
  induction l1 as [|d l1 IH]; [reflexivity|]. cbn [app user_texts].
  destruct (JsString.eqb (className d) (js "msg user")); rewrite IH;
    reflexivity.
Qed.

(** A part of the script that leaves the transcript and the synthesis engine
    alone and makes no request. *)
Lemma script_effect_quiet (p p' : page) :
  micBtn_disabled p' = micBtn_disabled p ->
  micBtn_title p' = micBtn_title p ->
  speechSynthesis_in_window p' = speechSynthesis_in_window p ->
  messages p' = messages p ->
  requests (log p') = requests (log p) ->
  synthesis_calls (log p') = synthesis_calls (log p) ->
  queued_utterances p' <= queued_utterances p ->
  script_effect p p'.
Proof.
  intros Hd Ht Hw Hm Hr Hs Hq. unfold script_effect.
  split; [exact Hd|]. split; [exact Ht|]. split; [exact Hw|].
  split; [|split].
  - exists []. rewrite Hm, Hr, !app_nil_r. auto.
  - intros _. exact Hs.
  - intros H. lia.
Qed.

Lemma script_effect_refl (p : page) : script_effect p p.
Proof. apply script_effect_quiet; reflexivity || lia. Qed.

Lemma append_and_scroll_effect (d : div) (p : page) :
  is_chat_message d = true ->
  user_texts [d] = [] ->
  script_effect p (append_and_scroll d p).
Proof.
  intros Hd Hu. unfold script_effect.
  split; [reflexivity|]. split; [reflexivity|]. split; [reflexivity|].
  split; [|split].
  - exists [d]. split; [reflexivity|]. split; [cbn; rewrite Hd; reflexivity|].
    rewrite Hu. cbn [log append_and_scroll emit appendChild map].
    rewrite !requests_app. cbn. rewrite !app_nil_r. reflexivity.
  - intros _. cbn [log append_and_scroll emit appendChild].
    rewrite !synthesis_calls_app. cbn. rewrite !app_nil_r. reflexivity.
  - intros H. exact H.
Qed.

Lemma handleSend_answered_effect (ans : value) (p : page) :
  script_effect p (fst (handleSend_answered ans p)).
Proof.
  unfold handleSend_answered, addMsg. cbn [ToString and_then].
  destruct (to_text_content ans) as [text|e]; cbn [and_then fst];
    [|apply script_effect_refl].
  change (speakChk_checked (append_and_scroll _ p)) with (speakChk_checked p).
  change (speechSynthesis_in_window (append_and_scroll _ p))
    with (speechSynthesis_in_window p).
  destruct (speakChk_checked p && speechSynthesis_in_window p) eqn:Hc;
    [|apply append_and_scroll_effect; reflexivity].
  destruct (ToString ans) as [said|e]; cbn [fst];
    [|apply append_and_scroll_effect; reflexivity].
  apply andb_true_iff in Hc. destruct Hc as [Hchk Hwin].
  unfold script_effect.
  split; [reflexivity|]. split; [reflexivity|]. split.
  { unfold speechSynthesis_in_window in *. cbn.
    destruct (speechSynthesis p); [reflexivity | discriminate]. }
  split; [|split].
  - eexists [_]. split; [reflexivity|]. split; [reflexivity|].
    cbn. rewrite !requests_app. cbn. rewrite !app_nil_r. reflexivity.
  - intros [Hoff | Hnone].
    + rewrite Hoff in Hchk. discriminate.
    + unfold speechSynthesis_in_window in Hwin. rewrite Hnone in Hwin.
      discriminate.
  - intros _. unfold queued_utterances. cbn.
    destruct (speechSynthesis p); cbn; lia.
Qed.

Lemma handleSend_await_effect (ask : async value) (p : page) :
  script_effect p (fst (handleSend_await ask p)).
Proof.
  destruct ask as [pt | [ans | e]]; cbn [handleSend_await fst];
    try apply script_effect_refl.
  pose proof (handleSend_answered_effect ans p) as H.
  destruct (handleSend_answered ans p) as [p' r]. exact H.
Qed.

Lemma handleSend_effect (p : page) : script_effect p (fst (handleSend p)).
Proof.
  destruct (list_eq_dec N.eq_dec (JsString.trim (promptInput_value p)) [])
    as [E | NE].
  - rewrite (handleSend_noop p E). apply script_effect_refl.
  - rewrite (handleSend_proceeds p NE). cbn [fst]. unfold script_effect.
    split; [reflexivity|]. split; [reflexivity|]. split; [reflexivity|].
    split; [|split].
    + eexists [_]. split; [reflexivity|]. split; [reflexivity|].
      cbn. rewrite !requests_app. cbn. rewrite !app_nil_r. reflexivity.
    + intros _. cbn. rewrite !synthesis_calls_app. cbn.
      rewrite !app_nil_r. reflexivity.
    + intros H. exact H.
Qed.

Lemma set_promptInput_value_effect (v : jsstring) (p : page) :
  script_effect p (set_promptInput_value v p).
Proof.
  apply script_effect_quiet; try reflexivity; try lia.
  - cbn. rewrite requests_app. cbn. apply app_nil_r.
  - cbn. rewrite synthesis_calls_app. cbn. apply app_nil_r.
Qed.

Lemma script_effect_trans (p1 p2 p3 : page) :
  speakChk_checked p2 = speakChk_checked p1 ->
  script_effect p1 p2 -> script_effect p2 p3 -> script_effect p1 p3.
Proof.
  intros Hchk (Hd1 & Ht1 & Hw1 & (a1 & Hm1 & Hc1 & Hr1) & Hs1 & Hq1)
         (Hd2 & Ht2 & Hw2 & (a2 & Hm2 & Hc2 & Hr2) & Hs2 & Hq2).
  unfold script_effect.
  split; [congruence|]. split; [congruence|]. split; [congruence|].
  split; [|split].
  - exists (a1 ++ a2). split; [rewrite Hm2, Hm1, app_assoc; reflexivity|].
    split; [rewrite forallb_app, Hc1, Hc2; reflexivity|].
    rewrite Hr2, Hr1, user_texts_app, map_app, app_assoc. reflexivity.
  - intros H. rewrite Hs2, Hs1; [reflexivity | exact H |].
    destruct H as [H | H]; [left; congruence|]. right.
    unfold speechSynthesis_in_window in Hw1. rewrite H in Hw1.
    destruct (speechSynthesis p2); [discriminate | reflexivity].
  - auto.
Qed.

Lemma handleSend_answered_checkbox (ans : value) (p : page) :
  speakChk_checked (fst (handleSend_answered ans p)) = speakChk_checked p
  /\ promptInput_value (fst (handleSend_answered ans p)) = promptInput_value p.
Proof.
  unfold handleSend_answered, addMsg. cbn [ToString and_then].
  destruct (to_text_content ans) as [text|e]; cbn [and_then fst];
    [|split; reflexivity].
  destruct (_ && _); [|split; reflexivity].
  destruct (ToString ans); split; reflexivity.
Qed.

Lemma handleSend_await_checkbox (ask : async value) (p : page) :
  speakChk_checked (fst (handleSend_await ask p)) = speakChk_checked p
  /\ promptInput_value (fst (handleSend_await ask p)) = promptInput_value p.
Proof.
  destruct ask as [pt | [ans | e]]; cbn [handleSend_await fst];
    try (split; reflexivity).
  pose proof (handleSend_answered_checkbox ans p) as H.
  destruct (handleSend_answered ans p) as [p' r]. exact H.
Qed.

Lemma handleSend_checkbox (p : page) :
  speakChk_checked (fst (handleSend p)) = speakChk_checked p.
Proof.
  destruct (list_eq_dec N.eq_dec (JsString.trim (promptInput_value p)) [])
    as [E | NE].
  - rewrite (handleSend_noop p E). reflexivity.
  - rewrite (handleSend_proceeds p NE). reflexivity.
Qed.

Lemma call_handleSend_doc (w : world) :
  doc (call_handleSend w) = fst (handleSend (doc w)).
Proof.
  unfold call_handleSend. destruct (handleSend (doc w)). reflexivity.
Qed.

(** The page after a step, for each kind of event. *)
Lemma step_doc (ev : event) (w : world) :
  doc (step ev w)
  = match ev with
    | SendClick => fst (handleSend (doc w))
    | PromptKeydown key =>
        if JsString.eqb key (js "Enter") then fst (handleSend (doc w))
        else doc w
    | UserEdits v => store_prompt v (doc w)
    | UserSetsSpeak b => store_checked b (doc w)
    | MicMousedown =>
        match recognition w with
        | Some _ => emit RecognitionStart
                      (micBtn_classList_add (js "rec") (doc w))
        | None => doc w
        end
    | MicMouseup =>
        match recognition w with
        | Some _ => emit RecognitionStop (doc w)
        | None => doc w
        end
    | RecognitionResult results =>
        match recognition w, first_transcript results with
        | Some _, Fulfilled text =>
            fst (handleSend (set_promptInput_value text (doc w)))
        | _, _ => doc w
        end
    | RecognitionErrorEvent | RecognitionEnd =>
        match recognition w with
        | Some _ => micBtn_classList_remove (js "rec") (doc w)
        | None => doc w
        end
    | FetchSettles i r =>
        match nth_error (sends w) i with
        | Some (Await AtFetch) =>
            fst (handleSend_await (askServer_on_fetch r) (doc w))
        | _ => doc w
        end
    | JsonSettles i r =>
        match nth_error (sends w) i with
        | Some (Await AtJson) =>
            fst (handleSend_await (askServer_on_json r) (doc w))
        | _ => doc w
        end
    | UtteranceEnds =>
        store_queue (option_map (@tl utterance) (speechSynthesis (doc w)))
          (doc w)
    end.
Proof.
  destruct ev as [ |key|v|b| | |results| | |i r|i r| ]; cbn [step].
  - apply call_handleSend_doc.
  - destruct (JsString.eqb key (js "Enter"));
      [apply call_handleSend_doc | reflexivity].
  - reflexivity.
  - reflexivity.
  - destruct (recognition w); reflexivity.
  - destruct (recognition w); reflexivity.
  - destruct (recognition w); [|reflexivity].
    unfold recognition_onresult.
    destruct (first_transcript results); [|reflexivity].
    rewrite call_handleSend_doc. reflexivity.
  - destruct (recognition w); reflexivity.
  - destruct (recognition w); reflexivity.
  - destruct (nth_error (sends w) i) as [[[ | ] | ] | ]; try reflexivity.
    unfold handleSend_on_fetch.
    destruct (handleSend_await (askServer_on_fetch r) (doc w)). reflexivity.
  - destruct (nth_error (sends w) i) as [[[ | ] | ] | ]; try reflexivity.
    unfold handleSend_on_json.
    destruct (handleSend_await (askServer_on_json r) (doc w)). reflexivity.
  - reflexivity.
Qed.

Ltac quiet_log :=
  cbn [log emit micBtn_classList_add micBtn_classList_remove store_classList];
  rewrite ?requests_app, ?synthesis_calls_app; cbn;
  rewrite ?app_nil_r; reflexivity.

(** Every step has the effect of a part of the script. *)
Lemma step_effect (ev : event) (w : world) :
  script_effect (doc w) (doc (step ev w)).
Proof.
  rewrite step_doc.
  destruct ev as [ |key|v|b| | |results| | |i r|i r| ].
  - apply handleSend_effect.
  - destruct (JsString.eqb key (js "Enter"));
      [apply handleSend_effect | apply script_effect_refl].
  - apply script_effect_quiet; reflexivity || lia.
  - apply script_effect_quiet; reflexivity || lia.
  - destruct (recognition w); [|apply script_effect_refl].
    apply script_effect_quiet; try reflexivity; try lia.
    + quiet_log.
    + quiet_log.
  - destruct (recognition w); [|apply script_effect_refl].
    apply script_effect_quiet; try reflexivity; try lia.
    + quiet_log.
    + quiet_log.
  - destruct (recognition w); [|apply script_effect_refl].
    destruct (first_transcript results) as [text|e];
      [|apply script_effect_refl].
    apply (script_effect_trans (doc w) (set_promptInput_value text (doc w)));
      [reflexivity | apply set_promptInput_value_effect
      | apply handleSend_effect].
  - destruct (recognition w); [|apply script_effect_refl].
    apply script_effect_quiet; try reflexivity; try lia.
    + quiet_log.
    + quiet_log.
  - destruct (recognition w); [|apply script_effect_refl].
    apply script_effect_quiet; try reflexivity; try lia.
    + quiet_log.
    + quiet_log.
  - destruct (nth_error (sends w) i) as [[[ | ] | ] | ];
      first [apply handleSend_await_effect | apply script_effect_refl].
  - destruct (nth_error (sends w) i) as [[[ | ] | ] | ];
      first [apply handleSend_await_effect | apply script_effect_refl].
  - apply script_effect_quiet; try reflexivity.
    + unfold speechSynthesis_in_window. cbn.
      destruct (speechSynthesis (doc w)); reflexivity.
    + unfold queued_utterances. cbn.
      destruct (speechSynthesis (doc w)) as [[|u q]|]; cbn; lia.
Qed.

(** Only the user changes the checkbox. *)
Lemma step_checkbox (ev : event) (w : world) :
  speakChk_checked (doc (step ev w))
  = match ev with
    | UserSetsSpeak b => b
    | _ => speakChk_checked (doc w)
    end.
Proof.
  rewrite step_doc.
  destruct ev as [ |key|v|b| | |results| | |i r|i r| ];
    try reflexivity.
  - apply handleSend_checkbox.
  - destruct (JsString.eqb key (js "Enter"));
      [apply handleSend_checkbox | reflexivity].
  - destruct (recognition w); reflexivity.
  - destruct (recognition w); reflexivity.
  - destruct (recognition w); [|reflexivity].
    destruct (first_transcript results); [|reflexivity].
    rewrite handleSend_checkbox. reflexivity.
  - destruct (recognition w); reflexivity.
  - destruct (recognition w); reflexivity.
  - destruct (nth_error (sends w) i) as [[[ | ] | ] | ]; try reflexivity.
    apply handleSend_await_checkbox.
  - destruct (nth_error (sends w) i) as [[[ | ] | ] | ]; try reflexivity.
    apply handleSend_await_checkbox.
Qed.

Lemma run_cons (ev : event) (evs : list event) (w : world) :
  run (ev :: evs) w = run evs (step ev w).
Proof. reflexivity. Qed.

(** X5.  Whatever events occur, the transcript only grows, by user and bot
    messages, none is removed or changed; and the requests made in the
    meantime are exactly those for the user messages added, in their
    order. *)
Theorem transcript_grows_with_requests (evs : list event) (w : world) :
  exists added,
    messages (doc (run evs w)) = messages (doc w) ++ added
    /\ forallb is_chat_message added = true
    /\ requests (log (doc (run evs w)))
       = requests (log (doc w)) ++ map ask_request (user_texts added).
Proof.
  revert w. induction evs as [|ev evs IH]; intros w.
  - exists []. cbn. rewrite !app_nil_r. auto.
  - rewrite run_cons.
    destruct (step_effect ev w) as (_ & _ & _ & (a1 & Hm1 & Hc1 & Hr1) & _).
    destruct (IH (step ev w)) as (a2 & Hm2 & Hc2 & Hr2).
    exists (a1 ++ a2). split; [rewrite Hm2, Hm1, app_assoc; reflexivity|].
    split; [rewrite forallb_app, Hc1, Hc2; reflexivity|].
    rewrite Hr2, Hr1, user_texts_app, map_app, app_assoc. reflexivity.
Qed.

(** X6.  After the script has started nothing it does changes whether the
    microphone button is disabled, its title, the recognition object, or
    whether the window has a synthesis engine. *)
Theorem mic_button_settings_are_kept (evs : list event) (w : world) :
  micBtn_disabled (doc (run evs w)) = micBtn_disabled (doc w)
  /\ micBtn_title (doc (run evs w)) = micBtn_title (doc w)
  /\ recognition (run evs w) = recognition w
  /\ speechSynthesis_in_window (doc (run evs w))
     = speechSynthesis_in_window (doc w).
Proof.
  revert w. induction evs as [|ev evs IH]; intros w; [auto|].
  rewrite run_cons.
  destruct (step_effect ev w) as (Hd & Ht & Hw & _).
  destruct (step_modest ev w) as [Hr _].
  destruct (IH (step ev w)) as (Hd' & Ht' & Hr' & Hw').
  repeat split; congruence.
Qed.

(** X7.  The engine is never called while the checkbox stays off, however
    many questions are sent and answered; nor in a window without a synthesis
    engine, whatever the checkbox. *)
Theorem speech_needs_checkbox_and_engine (evs : list event) (w : world) :
  (speakChk_checked (doc w) = false -> existsb sets_speak_on evs = false ->
   speakChk_checked (doc (run evs w)) = false
   /\ synthesis_calls (log (doc (run evs w)))
      = synthesis_calls (log (doc w)))
  /\ (speechSynthesis (doc w) = None ->
      speechSynthesis (doc (run evs w)) = None
      /\ synthesis_calls (log (doc (run evs w)))
         = synthesis_calls (log (doc w))).
Proof.
  revert w. induction evs as [|ev evs IH]; intros w; [auto|].
  rewrite run_cons.
  destruct (step_effect ev w) as (_ & _ & Hw & _ & Hs & _).
  destruct (IH (step ev w)) as [IHoff IHnone].
  split.
  - intros Hoff Hev. cbn [existsb] in Hev.
    apply orb_false_iff in Hev. destruct Hev as [Hev Hevs].
    assert (Hoff' : speakChk_checked (doc (step ev w)) = false).
    { rewrite step_checkbox. destruct ev as [ | | |[|]| | | | | | | | ];
        first [exact Hoff | discriminate | reflexivity]. }
    destruct (IHoff Hoff' Hevs) as [Hc Hcalls].
    split; [exact Hc|]. rewrite Hcalls. apply Hs. left. exact Hoff.
  - intros Hnone.
    assert (Hnone' : speechSynthesis (doc (step ev w)) = None).
    { unfold speechSynthesis_in_window in Hw. rewrite Hnone in Hw.
      destruct (speechSynthesis (doc (step ev w)));
        [discriminate | reflexivity]. }
    destruct (IHnone Hnone') as [Hq Hcalls].
    split; [exact Hq|]. rewrite Hcalls. apply Hs. right. exact Hnone.
Qed.

(** Two questions sent and answered with the checkbox off. *)
Lemma speech_needs_checkbox_and_engine_witness :
  synthesis_calls
    (log (doc (run [UserEdits (js "Hi"); SendClick;
                    FetchSettles 0 ok_response;
                    JsonSettles 0 (Fulfilled (answer_object (js "Hello")));
                    UserEdits (js "Again"); PromptKeydown (js "Enter");
                    FetchSettles 1 ok_response;
                    JsonSettles 1 (Fulfilled (VObject []))]
                 (startup window_with_recognition
                    (page_with_prompt [] false)))))
  = [].
Proof.
  apply (proj1 (speech_needs_checkbox_and_engine _
                  (startup window_with_recognition
                     (page_with_prompt [] false))));
    reflexivity.
Defined.

(** X8.  The script never lets utterances pile up: when at most one is
    queued in the engine, at most one is queued after any events. *)
Theorem at_most_one_utterance_queued (evs : list event) (w : world) :
  queued_utterances (doc w) <= 1 ->
  queued_utterances (doc (run evs w)) <= 1.
Proof.
  revert w. induction evs as [|ev evs IH]; intros w H; [exact H|].
  rewrite run_cons. apply IH.
  destruct (step_effect ev w) as (_ & _ & _ & _ & _ & Hq). exact (Hq H).
Qed.

(** Two answers spoken one after the other. *)
Lemma at_most_one_utterance_queued_witness :
  queued_utterances
    (doc (run [UserEdits (js "Hi"); SendClick;
               UserEdits (js "Again"); SendClick;
               FetchSettles 0 ok_response; FetchSettles 1 ok_response;
               JsonSettles 0 (Fulfilled (answer_object (js "Hello")));
               JsonSettles 1 (Fulfilled (answer_object (js "Bye")))]
            (startup window_with_recognition (page_with_prompt [] true))))
  <= 1.
Proof.
  apply at_most_one_utterance_queued. vm_compute. lia.
Defined.

(** ** The checkbox is read when the answer arrives *)

(** X9.  Whether an answer is spoken depends on the checkbox as it stands
    when the answer arrives, not as it stood when the question was sent: with
    an engine in the window, if the user sets the checkbox while the request
    is under way, the answer is spoken exactly when it was set on. *)
Theorem checkbox_counts_when_answer_arrives
  (p : page) (rj : outcome value) (ans : value) (text : jsstring)
  (queue : list utterance) (b : bool) :
  JsString.trim (promptInput_value p) <> [] ->
  askServer_on_json rj = Done (Fulfilled ans) ->
  ToString ans = Fulfilled text ->
  speechSynthesis p = Some queue ->
  let in_flight := store_checked b (fst (handleSend p)) in
  synthesis_calls (log (fst (handleSend_on_json rj in_flight)))
  = synthesis_calls (log p)
      ++ (if b
          then [SynthesisCancel;
                SynthesisSpeak {| utterance_text := text;
                                  utterance_lang := js "en-IN" |}]
          else []).
Proof.
  intros Hq Hjson Htext Hqueue in_flight.
  pose proof (askServer_on_json_truthy _ _ Hjson) as Htruthy.
  destruct (handleSend_start_effects p Hq)
    as (p1 & Hstart & _ & _ & _ & Hsyn & Hlog).
  unfold in_flight. rewrite Hstart. cbn [fst].
  unfold handleSend_on_json. rewrite Hjson. cbn [handleSend_await].
  rewrite (handleSend_answered_rendered ans text _ Htruthy Htext).
  cbn [fst].
  change (speakChk_checked (store_checked b p1)) with b.
  assert (Hwin : speechSynthesis_in_window (store_checked b p1) = true).
  { unfold speechSynthesis_in_window. cbn. rewrite Hsyn, Hqueue. reflexivity. }
  rewrite Hwin, andb_true_r.
  destruct b; cbn; rewrite ?synthesis_calls_app, Hlog, ?synthesis_calls_app;
    cbn; rewrite ?app_nil_r; try rewrite <- app_assoc; reflexivity.
Qed.

(** Sent with the checkbox off, set on before the answer [Hello] arrives. *)
Lemma checkbox_counts_when_answer_arrives_witness :
  synthesis_calls
    (log (fst (handleSend_on_json (Fulfilled (answer_object (js "Hello")))
                 (store_checked true
                    (fst (handleSend (page_with_prompt (js "Hi") false)))))))
  = [SynthesisCancel;
     SynthesisSpeak {| utterance_text := js "Hello";
                       utterance_lang := js "en-IN" |}].
Proof.
  apply (checkbox_counts_when_answer_arrives
           (page_with_prompt (js "Hi") false)
           (Fulfilled (answer_object (js "Hello")))
           (VString (js "Hello")) (js "Hello") [] true);
    first [reflexivity | vm_compute; discriminate].
Defined.

(** ** Push to talk *)

(** X10.  When [window.SpeechRecognition || window.webkitSpeechRecognition]
    is the recognition constructor (the unprefixed one when that name holds
    it, else the prefixed one when the unprefixed name is absent or falsy),
    the script leaves the page as loaded and keeps a recognition object set
    to [en-IN], final results only and one alternative; a press of the
    microphone button then puts the class [rec] on it and calls [start()], in
    this order.  When one of the names is in the window but the value so
    chosen is no constructor, [new SR()] throws: the page is left as loaded,
    the button is not disabled, there is no recognition object and a press
    does nothing. *)
Theorem startup_with_recognition_arms_mic
  (e : window_speech_input) (p : page) :
  (forall prefixed : bool,
      (prefixed = false /\ SpeechRecognition e = RecognitionConstructor)
      \/ (prefixed = true
          /\ (SpeechRecognition e = NotInWindow
              \/ SpeechRecognition e = OtherValue false)
          /\ webkitSpeechRecognition e = RecognitionConstructor) ->
      doc (startup e p) = p
      /\ recognition (startup e p)
         = Some {| lang := js "en-IN"; interimResults := false;
                   maxAlternatives := 1; webkit_prefixed := prefixed |}
      /\ startup_completion e = Fulfilled tt
      /\ recording (step MicMousedown (startup e p)) = true
      /\ log (doc (step MicMousedown (startup e p)))
         = log p ++ [MicClassAdd (js "rec"); RecognitionStart]
      /\ messages (doc (step MicMousedown (startup e p))) = messages p)
  /\ (webkitSpeechRecognition_in_window e || SpeechRecognition_in_window e
      = true ->
      SpeechRecognition e = OtherValue true
      \/ ((SpeechRecognition e = NotInWindow
           \/ SpeechRecognition e = OtherValue false)
          /\ webkitSpeechRecognition e <> RecognitionConstructor) ->
      startup e p = {| doc := p; recognition := None; sends := [] |}
      /\ startup_completion e = Rejected TypeError
      /\ step MicMousedown (startup e p) = startup e p).
Proof.
  destruct e as [sr wk]. unfold startup, startup_completion, selected_SR,
    webkitSpeechRecognition_in_window, SpeechRecognition_in_window.
  cbn [SpeechRecognition webkitSpeechRecognition]. split.
  - intros prefixed [[-> ->] | (-> & Hsr & ->)].
    + rewrite orb_true_r. cbn [property_truthy in_window negb doc recognition
                                 step].
      split; [reflexivity|]. split; [reflexivity|]. split; [reflexivity|].
      split; [apply contains_after_add|].
      split; [cbn; rewrite <- app_assoc; reflexivity | reflexivity].
    + destruct Hsr as [-> | ->];
        cbn [property_truthy in_window orb negb doc recognition step];
        (split; [reflexivity|]; split; [reflexivity|]; split; [reflexivity|];
         split; [apply contains_after_add|];
         split; [cbn; rewrite <- app_assoc; reflexivity | reflexivity]).
  - intros Hin [-> | [Hsr Hwk]].
    + rewrite orb_true_r. cbn. auto.
    + rewrite Hin.
      destruct Hsr as [-> | ->]; cbn [property_truthy];
        (destruct wk; [| contradiction Hwk; reflexivity |]; cbn; auto).
Qed.

(** A window with the prefixed constructor only, and a window where
    [SpeechRecognition] is there but [undefined]. *)
Lemma startup_with_recognition_arms_mic_witness :
  option_map webkit_prefixed
    (recognition
       (startup window_with_prefixed_recognition (page_with_prompt [] false)))
  = Some true
  /\ recording
       (step MicMousedown
          (startup window_with_prefixed_recognition
             (page_with_prompt [] false)))
     = true
  /\ recognition
       (startup window_with_undefined_recognition (page_with_prompt [] false))
     = None
  /\ micBtn_disabled
       (doc (startup window_with_undefined_recognition
               (page_with_prompt [] false)))
     = false.
Proof.
  destruct (proj1 (startup_with_recognition_arms_mic
                     window_with_prefixed_recognition
                     (page_with_prompt [] false))
              true
              (or_intror (conj eq_refl (conj (or_introl eq_refl) eq_refl))))
    as (_ & Hrec & _ & Hpressed & _).
  destruct (proj2 (startup_with_recognition_arms_mic
                     window_with_undefined_recognition
                     (page_with_prompt [] false)))
    as (Hstart & _ & _);
    [reflexivity
    | right; split; [right; reflexivity | discriminate]
    | ].
  split; [rewrite Hrec; reflexivity|]. split; [exact Hpressed|].
  rewrite Hstart. split; reflexivity.
Defined.

(** X11.  Releasing the microphone button calls [stop()] and nothing more:
    the recording indicator stays as it is (it is cleared when the engine
    reports the end or an error), whether or not a capture is running.  A
    second press while the indicator is set adds no second [rec] class but
    calls [start()] again. *)
Theorem release_only_stops_engine (w : world) (r : recognizer) :
  recognition w = Some r ->
  (recording (step MicMouseup w) = recording w
   /\ log (doc (step MicMouseup w)) = log (doc w) ++ [RecognitionStop]
   /\ messages (doc (step MicMouseup w)) = messages (doc w)
   /\ promptInput_value (doc (step MicMouseup w)) = promptInput_value (doc w)
   /\ sends (step MicMouseup w) = sends w)
  /\ (recording w = true ->
      micBtn_classList (doc (step MicMousedown w)) = micBtn_classList (doc w)
      /\ recognition_calls (log (doc (step MicMousedown w)))
         = recognition_calls (log (doc w)) ++ [RecognitionStart]).
Proof.
  intros Hrec. cbn [step]. rewrite Hrec. split.
  - repeat split; reflexivity.
  - intros Hset. unfold recording in Hset. split.
    + unfold on_mousedown.
      cbn [doc with_doc emit micBtn_classList_add store_classList
             micBtn_classList].
      rewrite Hset. reflexivity.
    + unfold on_mousedown.
      cbn [doc with_doc emit micBtn_classList_add store_classList log].
      rewrite <- app_assoc, recognition_calls_app. reflexivity.
Qed.

(** Press, then release: the indicator is still set. *)
Lemma release_only_stops_engine_witness :
  recording
    (step MicMouseup
       (step MicMousedown
          (startup window_with_recognition (page_with_prompt [] false))))
  = true.
Proof.
  rewrite (proj1 (proj1 (release_only_stops_engine
                           (step MicMousedown
                              (startup window_with_recognition
                                 (page_with_prompt [] false)))
                           {| lang := js "en-IN"; interimResults := false;
                              maxAlternatives := 1;
                              webkit_prefixed := false |}
                           eq_refl))).
  reflexivity.
Defined.

Lemma assigned_value_single_line (v : jsstring) :
  assigned_value SingleLine v = filter (fun c => negb (is_line_break c)) v.
Proof.
  induction v as [|c v IH]; [reflexivity|].
  cbn [assigned_value filter]. unfold is_line_break at 1.
  destruct ((c =? 10) || (c =? 13))%N; cbn [negb]; rewrite IH; reflexivity.
Qed.

(** X12.  A recognised text is always assigned to the prompt, which then
    holds what the control keeps of it: in a single-line control the text
    without its line breaks, and in either control the text itself when it
    has no line break.  When the text is all white space, what is held stays
    there, unsent: no message and no request.  When it is not, the prompt is
    cleared again by the send.  A result event without a first alternative
    changes nothing. *)
Theorem recognised_text_in_prompt
  (w : world) (r : recognizer) (results : list (list alternative)) :
  recognition w = Some r ->
  (forall text, first_transcript results = Fulfilled text ->
     let held := assigned_value (promptInput_kind (doc w)) text in
     let heard := step (RecognitionResult results) w in
     (has_visible_text text = false ->
      promptInput_value (doc heard) = held
      /\ messages (doc heard) = messages (doc w)
      /\ requests (log (doc heard)) = requests (log (doc w))
      /\ log (doc heard) = log (doc w) ++ [SetPromptValue text])
     /\ (has_visible_text text = true -> promptInput_value (doc heard) = [])
     /\ (forallb (fun c => negb (is_line_break c)) text = true -> held = text)
     /\ (promptInput_kind (doc w) = SingleLine ->
         held = filter (fun c => negb (is_line_break c)) text))
  /\ (forall e, first_transcript results = Rejected e ->
      step (RecognitionResult results) w = w).
Proof.
  intros Hrec. split.
  - intros text Hfirst held heard.
    assert (Hdoc : doc heard
                   = fst (handleSend (set_promptInput_value text (doc w)))).
    { unfold heard. rewrite step_doc, Hrec, Hfirst. reflexivity. }
    assert (Hvis : has_visible_text held = has_visible_text text)
      by apply assigned_value_visible_text.
    rewrite Hdoc. split; [|split; [|split]].
    + intros Hblank. rewrite <- Hvis in Hblank.
      apply all_white_iff_no_visible_text, trim_nil_iff in Hblank.
      rewrite (handleSend_noop (set_promptInput_value text (doc w)) Hblank).
      cbn [fst]. split; [reflexivity|]. split; [reflexivity|].
      split; [|reflexivity].
      cbn. rewrite requests_app. cbn. apply app_nil_r.
    + intros Hv. rewrite <- Hvis in Hv. apply trim_of_visible_text in Hv.
      rewrite (handleSend_proceeds (set_promptInput_value text (doc w)) Hv).
      reflexivity.
    + apply assigned_value_without_line_break.
    + intros Hk. unfold held. rewrite Hk. apply assigned_value_single_line.
  - intros e Hfirst. cbn [step]. rewrite Hrec.
    unfold recognition_onresult. rewrite Hfirst. reflexivity.
Qed.

(** Two spaces are recognised and stay in the prompt; a carriage return
    between two spaces leaves the two spaces in a single-line prompt. *)
Lemma recognised_text_in_prompt_witness :
  promptInput_value
    (doc (step (RecognitionResult [[{| transcript := js "  " |}]])
            (startup window_with_recognition (page_with_prompt [] false))))
  = js "  "
  /\ promptInput_value
       (doc (step (RecognitionResult [[{| transcript := [32; 13; 32]%N |}]])
               (startup window_with_recognition (page_with_prompt [] false))))
     = js "  ".
Proof.
  split.
  - apply (proj1 (proj1 (proj1 (recognised_text_in_prompt
                                  (startup window_with_recognition
                                     (page_with_prompt [] false))
                                  {| lang := js "en-IN";
                                     interimResults := false;
                                     maxAlternatives := 1;
                                     webkit_prefixed := false |}
                                  [[{| transcript := js "  " |}]] eq_refl)
                           (js "  ") eq_refl) eq_refl)).
  - apply (proj1 (proj1 (proj1 (recognised_text_in_prompt
                                  (startup window_with_recognition
                                     (page_with_prompt [] false))
                                  {| lang := js "en-IN";
                                     interimResults := false;
                                     maxAlternatives := 1;
                                     webkit_prefixed := false |}
                                  [[{| transcript := [32; 13; 32]%N |}]]
                                  eq_refl)
                           [32; 13; 32]%N eq_refl) eq_refl)).
Defined.

(** X13.  When a response or its body arrives, for whichever call of
    [handleSend], the prompt and the checkbox are left as they are: what the
    user typed while waiting is kept. *)
Theorem arrival_keeps_prompt (w : world) (i : nat) :
  (forall r, promptInput_value (doc (step (FetchSettles i r) w))
             = promptInput_value (doc w)
             /\ speakChk_checked (doc (step (FetchSettles i r) w))
                = speakChk_checked (doc w)
             /\ doc (step (FetchSettles i r) w) = doc w)
  /\ (forall r, promptInput_value (doc (step (JsonSettles i r) w))
                = promptInput_value (doc w)
                /\ speakChk_checked (doc (step (JsonSettles i r) w))
                   = speakChk_checked (doc w)).
Proof.
  split; intros r; rewrite !step_doc.
  - destruct (nth_error (sends w) i) as [[[ | ] | ] | ]; auto.
    destruct r; auto.
  - destruct (nth_error (sends w) i) as [[[ | ] | ] | ]; auto.
    destruct (handleSend_await_checkbox (askServer_on_json r) (doc w)); auto.
Qed.

(** X14.  A response on which reading [answer] throws (the body [null]), or
    whose answer has no rendition as text, rejects the call of [handleSend]
    with that error when it arrives, and leaves the page as it is: no bot
    message, and the synthesis engine is not called. *)
Theorem unusable_response_rejects_send (data : value) (e : error) (p : page) :
  (get_answer data = Rejected e
   \/ exists ans, askServer_on_json (Fulfilled data) = Done (Fulfilled ans)
                  /\ to_text_content ans = Rejected e) ->
  handleSend_on_json (Fulfilled data) p = (p, Done (Rejected e)).
Proof.
  unfold handleSend_on_json. intros [H | (ans & Hjson & Htext)].
  - unfold askServer_on_json. rewrite H. reflexivity.
  - rewrite Hjson. cbn [handleSend_await].
    rewrite (handleSend_answered_not_rendered ans e p Htext). reflexivity.
Qed.

(** The body [null]. *)
Lemma unusable_response_rejects_send_witness :
  handleSend_on_json (Fulfilled VNull) (page_with_prompt [] true)
  = (page_with_prompt [] true, Done (Rejected TypeError)).
Proof.
  apply unusable_response_rejects_send. left. reflexivity.
Defined.

(** ** Overlapping sends *)

Lemma nth_error_after (A : Type) (l r : list A) (x : A) :
  nth_error (l ++ x :: r) (List.length l) = Some x.
Proof. induction l as [|y l IH]; [reflexivity | exact IH]. Qed.

Lemma update_nth_after (A : Type) (l r : list A) (x y : A) :
  update_nth (List.length l) y (l ++ x :: r) = l ++ y :: r.
Proof.
  induction l as [|z l IH]; [reflexivity|]. cbn. rewrite IH. reflexivity.
Qed.








(** ** Answers that are not strings *)

(** X16.  [askServer] does not look at the type of the answer: a truthy
    [answer] of any JSON type is returned as it is, and the bot message shows
    its conversion to a string when it has one. *)
Theorem truthy_answer_is_returned_as_is
  (props : list (jsstring * value)) (v : value) (text : jsstring) (p : page) :
  own_prop (js "answer") props = Some v ->
  truthy v = true ->
  ToString v = Fulfilled text ->
  askServer_on_json (Fulfilled (VObject props)) = Done (Fulfilled v)
  /\ handleSend_on_json (Fulfilled (VObject props)) p
     = (fst (handleSend_answered v p), Done (Fulfilled tt))
  /\ messages (fst (handleSend_on_json (Fulfilled (VObject props)) p))
     = messages p ++ [bot_message text].
Proof.
  intros Hv Ht Hs.
  assert (Hjson : askServer_on_json (Fulfilled (VObject props))
                  = Done (Fulfilled v)).
  { unfold askServer_on_json, get_answer. rewrite Hv. unfold js_or.
    rewrite Ht. reflexivity. }
  split; [exact Hjson|].
  unfold handleSend_on_json. rewrite Hjson. cbn [handleSend_await].
  rewrite (handleSend_answered_rendered v text p Ht Hs). cbn [fst].
  split; [reflexivity|]. destruct (_ && _); reflexivity.
Qed.

(** The answer is the array of [true], [null] and the string [x]. *)
Lemma truthy_answer_is_returned_as_is_witness :
  messages
    (fst (handleSend_on_json
            (Fulfilled (answer_object_of
                          (VArray [VBool true; VNull; VString (js "x")])))
            (page_with_prompt [] false)))
  = [bot_message (js "true,,x")].
Proof.
  apply (truthy_answer_is_returned_as_is
           [(js "answer", VArray [VBool true; VNull; VString (js "x")])]
           (VArray [VBool true; VNull; VString (js "x")])
           (js "true,,x") (page_with_prompt [] false));
    reflexivity.
Defined.
